(** * fastapi-sqlalchemy2: the users/items service of [main.py]

    A shallow embedding of the one-file FastAPI + SQLAlchemy 2 application:
    the two mapped classes, the pydantic request/response models, the six
    CRUD functions and the five routes.  The relational store is modelled
    by the rows of its two tables together with the constraints that the
    mapped classes declare (primary keys, [unique=True], [String(n)],
    the nullability that [Mapped[...]] implies, [ForeignKey("users.id")]);
    a statement that violates one of them raises and changes nothing.

    The server behind [mysql+mysqldb://] is taken as it comes: InnoDB
    tables, so the foreign key is enforced, and strict SQL mode, so a value
    longer than its column is refused rather than cut.  Two things the
    server decides and [main.py] does not are left open, and every theorem
    holds whatever they are: the collation of [users.email], by which the
    server compares emails (on a default installation it ignores case), and
    the order in which the server tests the constraints of a row, which
    decides the exception when a row breaks several.  Integers are
    unbounded. *)

From Stdlib Require Import ZArith List Ascii String Bool Sorted Lia.
Import ListNotations.
Local Open Scope string_scope.
Local Open Scope list_scope.
Local Open Scope Z_scope.

(** ** SQLAlchemy models (main.py, lines 28-51) *)

(** A row of [users]: [id], [email], [hashed_password], [is_active]. *)
Record User := mkUser {
  user_id : Z;
  email : string;
  hashed_password : string;
  is_active : bool
}.

(** A row of [items].  [description] is declared [Mapped[str]], hence the
    column is NOT NULL and a stored row always carries a string. *)
Record Item := mkItem {
  item_id : Z;
  title : string;
  description : string;
  owner_id : Z
}.

(** Column sizes: [String(100)] for [email] and [hashed_password],
    [String(30)] for [title] and [description]. *)
Definition email_size : nat := 100.
Definition hashed_password_size : nat := 100.
Definition title_size : nat := 30.
Definition description_size : nat := 30.

(** ** Pydantic models (main.py, lines 62-105) *)

Record ItemCreateRequest := mkItemCreateRequest {
  req_title : string;
  req_description : option string        (* str | None = None *)
}.

Record ItemResponse := mkItemResponse {
  resp_title : string;
  resp_description : option string;
  resp_item_id : Z;
  resp_owner_id : Z
}.

Record UserCreateRequest := mkUserCreateRequest {
  req_email : string;
  req_password : string
}.

Record UserResponse := mkUserResponse {
  resp_email : string;
  resp_user_id : Z;
  resp_is_active : bool;
  resp_items : list ItemResponse
}.

(** ** The server

    The constraints the two mapped classes declare. *)
Inductive Constraint :=
| EmailSize            (* users.email: String(100) *)
| HashedPasswordSize   (* users.hashed_password: String(100) *)
| EmailUnique          (* users.email: unique=True *)
| TitleSize            (* items.title: String(30) *)
| DescriptionSize      (* items.description: String(30) *)
| DescriptionNotNull   (* items.description: Mapped[str] *)
| OwnerForeignKey.     (* items.owner_id: ForeignKey("users.id") *)

(** [collation] maps a string to the key by which the server compares it:
    [users.email = x] holds when the keys of both sides are the same
    string, in a [WHERE] as in the unique index.  [precedence] ranks the
    constraints in the order the server tests them, the smaller first. *)
Record Server := mkServer {
  collation : string -> string;
  precedence : Constraint -> nat
}.

(** ** The store

    Each table keeps its rows in the order a [SELECT] without [ORDER BY]
    returns them (insertion order, which is primary-key order) and its
    AUTO_INCREMENT counter. *)
Record Database := mkDatabase {
  server : Server;
  users : list User;
  items : list Item;
  users_auto_increment : Z;
  items_auto_increment : Z
}.

(** What [Base.metadata.create_all] leaves on a fresh server. *)
Definition empty_database (sv : Server) : Database := mkDatabase sv [] [] 1 1.

(** ** Exceptions *)
Inductive Exception :=
| HTTPException (status_code : Z) (detail : string)
| IntegrityError        (* UNIQUE, NOT NULL or FOREIGN KEY violated *)
| DataError             (* value longer than the column *)
| ProgrammingError      (* malformed statement: negative LIMIT/OFFSET *)
| InvalidRequestError.  (* refresh of an instance that is not persistent *)

(** What the driver raises for a broken constraint. *)
Definition exception_of (c : Constraint) : Exception :=
  match c with
  | EmailSize | HashedPasswordSize
  | TitleSize | DescriptionSize => DataError
  | EmailUnique | DescriptionNotNull | OwnerForeignKey =>
      IntegrityError
  end.

Inductive Outcome (A : Type) :=
| Returns (a : A)
| Raises (e : Exception).
Arguments Returns {A} a.
Arguments Raises {A} e.

(** ** The ORM session

    An instance handed to [db.add] is pending until [db.commit] flushes it;
    afterwards it is persistent and known by its primary key.  Python code
    keeps a reference to the object; here the reference is the position of
    the instance in the session. *)
Inductive Instance :=
| PendingUser (e h : string) (a : bool)
| PendingItem (t : string) (d : option string) (o : Z)
| PersistentUser (id : Z)
| PersistentItem (id : Z).

Record Session := mkSession {
  bind : Database;
  instances : list Instance
}.

(** [SessionLocal()] *)
Definition SessionLocal (d : Database) : Session := mkSession d [].

(** Code that runs against a session: it may change it, and either returns
    or raises. *)
Definition Db (A : Type) : Type := Session -> Session * Outcome A.

Definition ret {A} (a : A) : Db A := fun s => (s, Returns a).
Definition raise {A} (e : Exception) : Db A := fun s => (s, Raises e).
Definition bnd {A B} (m : Db A) (k : A -> Db B) : Db B :=
  fun s => match m s with
           | (s', Returns a) => k a s'
           | (s', Raises e) => (s', Raises e)
           end.

Notation "x <- m ;; k" := (bnd m (fun x => k))
  (at level 61, m at next level, right associativity).
Notation "m ;;; k" := (bnd m (fun _ => k))
  (at level 61, right associativity).

(** *** SELECT *)

Record Select (R : Type) := mkSelect {
  whereclause : Server -> R -> bool;   (* evaluated by the server *)
  offset_clause : Z;
  limit_clause : option Z
}.
Arguments mkSelect {R}.
Arguments whereclause {R}.
Arguments offset_clause {R}.
Arguments limit_clause {R}.

(** [select(C)], [.where(p)], [.offset(n)], [.limit(n)] *)
Definition select {R} : Select R := mkSelect (fun _ _ => true) 0 None.
Definition where_ {R} (p : Server -> R -> bool) (q : Select R) : Select R :=
  mkSelect (fun sv r => whereclause q sv r && p sv r) (offset_clause q) (limit_clause q).
Definition offset {R} (n : Z) (q : Select R) : Select R :=
  mkSelect (whereclause q) n (limit_clause q).
Definition limit {R} (n : Z) (q : Select R) : Select R :=
  mkSelect (whereclause q) (offset_clause q) (Some n).

(** The rows a statement yields on a table: filter, skip, take.  The server
    refuses a negative OFFSET or LIMIT. *)
Definition rows {R} (sv : Server) (q : Select R) (table : list R)
  : Outcome (list R) :=
  if offset_clause q <? 0 then Raises ProgrammingError
  else
    let matching := filter (whereclause q sv) table in
    match limit_clause q with
    | None => Returns (skipn (Z.to_nat (offset_clause q)) matching)
    | Some n =>
        if n <? 0 then Raises ProgrammingError
        else Returns (firstn (Z.to_nat n) (skipn (Z.to_nat (offset_clause q)) matching))
    end.

(** [db.execute(stmt).scalars()] on each mapped class. *)
Definition execute_User (q : Select User) : Db (list User) :=
  fun s => (s, rows (server (bind s)) q (users (bind s))).
Definition execute_Item (q : Select Item) : Db (list Item) :=
  fun s => (s, rows (server (bind s)) q (items (bind s))).

(** [.first()] and [.all()] *)
Definition first {R} (l : list R) : option R := hd_error l.
Definition all {R} (l : list R) : list R := l.

(** *** INSERT *)

(** The table after one more row; the counter moves past the key used. *)
Definition users_append (u : User) (d : Database) : Database :=
  mkDatabase (server d) (users d ++ [u]) (items d)
    (user_id u + 1) (items_auto_increment d).

Definition items_append (i : Item) (d : Database) : Database :=
  mkDatabase (server d) (users d) (items d ++ [i])
    (users_auto_increment d) (item_id i + 1).

(** [users.email = e] as the server of [d] decides it. *)
Definition email_eqb (d : Database) (x y : string) : bool :=
  String.eqb (collation (server d) x) (collation (server d) y).

(** The constraint the server reports when a row breaks the ones listed:
    the one it tests first. *)
Fixpoint least (rank : Constraint -> nat) (c : Constraint) (l : list Constraint)
  : Constraint :=
  match l with
  | [] => c
  | c' :: l' =>
      if (rank c' <? rank c)%nat then least rank c' l' else least rank c l'
  end.

Definition reported (sv : Server) (broken : list Constraint) : option Constraint :=
  match broken with
  | [] => None
  | c :: l => Some (least (precedence sv) c l)
  end.

(** [INSERT INTO users (email, hashed_password, is_active)]: both strings
    must fit their [String(100)] column and [email] is [unique=True]. *)
Definition broken_by_user (e h : string) (d : Database) : list Constraint :=
  (if (email_size <? String.length e)%nat then [EmailSize] else []) ++
  (if (hashed_password_size <? String.length h)%nat
   then [HashedPasswordSize] else []) ++
  (if existsb (fun u => email_eqb d (email u) e) (users d)
   then [EmailUnique] else []).

Definition insert_user (e h : string) (a : bool) (d : Database)
  : Outcome (Z * Database) :=
  match reported (server d) (broken_by_user e h d) with
  | Some c => Raises (exception_of c)
  | None =>
      let id := users_auto_increment d in
      Returns (id, users_append (mkUser id e h a) d)
  end.

(** [INSERT INTO items (title, description, owner_id)]: [description] is
    NOT NULL, both strings must fit their [String(30)] column and
    [owner_id] is a [ForeignKey("users.id")]. *)
Definition broken_by_item (t : string) (ds : option string) (o : Z) (d : Database)
  : list Constraint :=
  (if (title_size <? String.length t)%nat then [TitleSize] else []) ++
  match ds with
  | None => [DescriptionNotNull]
  | Some de =>
      if (description_size <? String.length de)%nat
      then [DescriptionSize] else []
  end ++
  (if existsb (fun u => user_id u =? o) (users d) then [] else [OwnerForeignKey]).

Definition insert_item (t : string) (ds : option string) (o : Z) (d : Database)
  : Outcome (Z * Database) :=
  match reported (server d) (broken_by_item t ds o d), ds with
  | Some c, _ => Raises (exception_of c)
  | None, Some de =>
      let id := items_auto_increment d in
      Returns (id, items_append (mkItem id t de o) d)
  | None, None => Raises IntegrityError   (* a missing description is reported *)
  end.

(** *** add, commit, refresh *)

(** [db.add(obj)]: the instance becomes pending; the result is the
    reference to it. *)
Definition add (i : Instance) : Db nat :=
  fun s => (mkSession (bind s) (instances s ++ [i]), Returns (List.length (instances s))).

(** The flush inside [commit]: one INSERT per pending instance, in the
    order they were added; the server supplies the primary key. *)
Definition flush_instance (i : Instance) (d : Database)
  : Outcome (Instance * Database) :=
  match i with
  | PendingUser e h a =>
      match insert_user e h a d with
      | Returns (id, d') => Returns (PersistentUser id, d')
      | Raises x => Raises x
      end
  | PendingItem t ds o =>
      match insert_item t ds o d with
      | Returns (id, d') => Returns (PersistentItem id, d')
      | Raises x => Raises x
      end
  | _ => Returns (i, d)
  end.

Fixpoint flush (new : list Instance) (d : Database)
  : Outcome (list Instance * Database) :=
  match new with
  | [] => Returns ([], d)
  | i :: rest =>
      match flush_instance i d with
      | Raises x => Raises x
      | Returns (j, d') =>
          match flush rest d' with
          | Raises x => Raises x
          | Returns (js, d'') => Returns (j :: js, d'')
          end
      end
  end.

(** [db.commit()]: flush and make durable, or raise with the transaction
    rolled back. *)
Definition commit : Db unit :=
  fun s => match flush (instances s) (bind s) with
           | Returns (js, d') => (mkSession d' js, Returns tt)
           | Raises e => (s, Raises e)
           end.

(** [db.refresh(obj)]: reload the row by primary key. *)
Definition refresh_User (h : nat) : Db User :=
  fun s => match nth_error (instances s) h with
           | Some (PersistentUser id) =>
               match find (fun u => user_id u =? id) (users (bind s)) with
               | Some u => (s, Returns u)
               | None => (s, Raises InvalidRequestError)
               end
           | _ => (s, Raises InvalidRequestError)
           end.

Definition refresh_Item (h : nat) : Db Item :=
  fun s => match nth_error (instances s) h with
           | Some (PersistentItem id) =>
               match find (fun i => item_id i =? id) (items (bind s)) with
               | Some i => (s, Returns i)
               | None => (s, Raises InvalidRequestError)
               end
           | _ => (s, Raises InvalidRequestError)
           end.

(** ** CRUD functions (main.py, lines 117-155) *)

Definition get_db_user (user_id' : Z) : Db (option User) :=
  r <- execute_User (where_ (fun _ u => user_id u =? user_id') select) ;;
  ret (first r).

Definition get_db_user_by_email (email' : string) : Db (option User) :=
  r <- execute_User
         (where_ (fun sv u => String.eqb (collation sv (email u)) (collation sv email'))
            select) ;;
  ret (first r).

(** [skip] and [limit] have defaults here too; every call passes both. *)
Definition get_db_users (skip limit' : Z) : Db (list User) :=
  r <- execute_User (limit limit' (offset skip select)) ;;
  ret (all r).

Definition create_db_user (user : UserCreateRequest) : Db User :=
  let fake_hashed_password := (req_password user ++ "notreallyhashed")%string in
  let db_user := PendingUser (req_email user) fake_hashed_password true in
  h <- add db_user ;;
  commit ;;;
  refresh_User h.

Definition get_db_items (skip limit' : Z) : Db (list Item) :=
  r <- execute_Item (limit limit' (offset skip select)) ;;
  ret (all r).

Definition create_db_user_item (item : ItemCreateRequest) (user_id' : Z) : Db Item :=
  let db_item := PendingItem (req_title item) (req_description item) user_id' in
  h <- add db_item ;;
  commit ;;;
  refresh_Item h.

(** ** Route functions (main.py, lines 189-226) *)

(** A parameter with a default value may be left out by the caller. *)
Definition or_default (d : Z) (p : option Z) : Z :=
  match p with Some v => v | None => d end.

(** An instance of a mapped class is truthy, so [if db_user:] tests for
    [None]. *)
Definition create_user (user : UserCreateRequest) : Db User :=
  db_user <- get_db_user_by_email (req_email user) ;;
  match db_user with
  | Some _ => raise (HTTPException 400 "Email already registered")
  | None => create_db_user user
  end.

Definition read_users (skip limit' : option Z) : Db (list User) :=
  let skip := or_default 0 skip in
  let limit' := or_default 100 limit' in
  get_db_users skip limit'.

Definition read_user (user_id' : Z) : Db User :=
  db_user <- get_db_user user_id' ;;
  match db_user with
  | None => raise (HTTPException 404 "User not found")
  | Some u => ret u
  end.

Definition create_item_for_user (user_id' : Z) (item : ItemCreateRequest) : Db Item :=
  create_db_user_item item user_id'.

Definition read_items (skip limit' : option Z) : Db (list Item) :=
  let skip := or_default 0 skip in
  let limit' := or_default 100 limit' in
  get_db_items skip limit'.

(** ** Response models ([orm_mode = True]) *)

Definition ItemResponse_from_orm (i : Item) : ItemResponse :=
  mkItemResponse (title i) (Some (description i)) (item_id i) (owner_id i).

(** Reading [user.items] loads the relationship: the rows of [items] whose
    [owner_id] is the user's [id]. *)
Definition User_items (u : User) : Db (list Item) :=
  r <- execute_Item (where_ (fun _ i => owner_id i =? user_id u) select) ;;
  ret (all r).

Definition UserResponse_from_orm (u : User) : Db UserResponse :=
  its <- User_items u ;;
  ret (mkUserResponse (email u) (user_id u) (is_active u)
         (map ItemResponse_from_orm its)).

Fixpoint for_each {A B} (f : A -> Db B) (l : list A) : Db (list B) :=
  match l with
  | [] => ret []
  | a :: l' => b <- f a ;; bs <- for_each f l' ;; ret (b :: bs)
  end.

(** ** The application *)

Inductive Request :=
| POST_users (body : UserCreateRequest)
| GET_users (skip limit' : option Z)
| GET_users_id (user_id' : Z)
| POST_users_id_items (user_id' : Z) (body : ItemCreateRequest)
| GET_items (skip limit' : option Z).

Inductive Body :=
| UserBody (u : UserResponse)
| UserListBody (us : list UserResponse)
| ItemBody (i : ItemResponse)
| ItemListBody (its : list ItemResponse).

(** The route function, then the conversion to its [response_model]. *)
Definition route (r : Request) : Db Body :=
  match r with
  | POST_users body =>
      u <- create_user body ;; b <- UserResponse_from_orm u ;; ret (UserBody b)
  | GET_users skip limit' =>
      us <- read_users skip limit' ;;
      bs <- for_each UserResponse_from_orm us ;; ret (UserListBody bs)
  | GET_users_id user_id' =>
      u <- read_user user_id' ;; b <- UserResponse_from_orm u ;; ret (UserBody b)
  | POST_users_id_items user_id' body =>
      i <- create_item_for_user user_id' body ;; ret (ItemBody (ItemResponse_from_orm i))
  | GET_items skip limit' =>
      its <- read_items skip limit' ;;
      ret (ItemListBody (map ItemResponse_from_orm its))
  end.

(** [Depends(get_db)]: a session per request, closed when the request is
    over; what was not committed is gone. *)
Definition get_db {A} (handler : Db A) (d : Database) : Database * Outcome A :=
  let (s, o) := handler (SessionLocal d) in (bind s, o).

Definition serve (d : Database) (r : Request) : Database * Outcome Body :=
  get_db (route r) d.

(** The store after a sequence of requests handled one after the other. *)
Definition serve_all (rs : list Request) (d : Database) : Database :=
  fold_left (fun d' r => fst (serve d' r)) rs d.

(** The two client errors the routes raise. *)
Definition ConflictError : Exception := HTTPException 400 "Email already registered".
Definition NotFoundError : Exception := HTTPException 404 "User not found".

(** The response a user converts to, given the rows of [items]. *)
Definition UserResponse_of (d : Database) (u : User) : UserResponse :=
  mkUserResponse (email u) (user_id u) (is_active u)
    (map ItemResponse_from_orm
       (filter (fun i => owner_id i =? user_id u) (items d))).

(** A stored account has the email [e], as the server compares emails. *)
Definition email_taken (d : Database) (e : string) : Prop :=
  exists u, In u (users d) /\ collation (server d) (email u) = collation (server d) e.

(** ** Consistency of the store with the declared schema *)
Record consistent (d : Database) : Prop := {
  users_pk_issued : forall u, In u (users d) -> user_id u < users_auto_increment d;
  users_pk_unique : NoDup (map user_id (users d));
  users_email_unique : NoDup (map email (users d));
  items_pk_issued : forall i, In i (items d) -> item_id i < items_auto_increment d;
  items_pk_unique : NoDup (map item_id (items d));
  items_owner_fk :
    forall i, In i (items d) -> exists u, In u (users d) /\ user_id u = owner_id i
}.

(** The rows the two creating functions hand to the store. *)
Definition new_user (d : Database) (user : UserCreateRequest) : User :=
  mkUser (users_auto_increment d) (req_email user)
    (req_password user ++ "notreallyhashed")%string true.

Definition new_item (d : Database) (t de : string) (o : Z) : Item :=
  mkItem (items_auto_increment d) t de o.

(** ** Sample requests and stores *)

Fixpoint string_repeat (c : ascii) (n : nat) : string :=
  match n with
  | O => EmptyString
  | S n' => String c (string_repeat c n')
  end.

(** A server as installed: emails are compared without regard to the case
    of the letters a-z, and a row is tested column by column, then for
    NULLs, then against the indexes. *)
Definition lower_ascii (c : ascii) : ascii :=
  let n := nat_of_ascii c in
  if ((65 <=? n) && (n <=? 90))%nat then ascii_of_nat (n + 32) else c.

Fixpoint lower (x : string) : string :=
  match x with
  | EmptyString => EmptyString
  | String c x' => String (lower_ascii c) (lower x')
  end.

Definition column_order (c : Constraint) : nat :=
  match c with
  | EmailSize | TitleSize => 0
  | HashedPasswordSize | DescriptionSize => 1
  | DescriptionNotNull => 2
  | EmailUnique | OwnerForeignKey => 3
  end.

Definition default_server : Server := mkServer lower column_order.

(** The same server with the constraints tested the other way round. *)
Definition other_order_server : Server :=
  mkServer lower (fun c => (3 - column_order c)%nat).

Definition alice : UserCreateRequest := mkUserCreateRequest "alice@example.com" "wonderland".
Definition bob : UserCreateRequest := mkUserCreateRequest "bob@example.com" "builder".

(** An email of 101 characters. *)
Definition long_email : string := string_repeat "a"%char 101.

Definition milk : ItemCreateRequest := mkItemCreateRequest "milk" (Some "two litres").
Definition bread : ItemCreateRequest := mkItemCreateRequest "bread" (Some "wholemeal").

(** The store with alice's account only. *)
Definition alice_only : Database :=
  serve_all [POST_users alice] (empty_database default_server).

(** alice's account and a hundred items of hers. *)
Definition hundred_items : Database :=
  serve_all (POST_users alice :: repeat (POST_users_id_items 1 milk) 100)
    (empty_database default_server).

(** A hundred and fifty accounts, one request each. *)
Definition numbered (k : nat) : UserCreateRequest :=
  mkUserCreateRequest
    (string_repeat "u"%char (S (k mod 10)) ++ "@" ++ string_repeat "x"%char (S (k / 10)))%string
    "password".

Definition hundred_fifty_users : Database :=
  serve_all (map (fun k => POST_users (numbered k)) (seq 0 150))
    (empty_database default_server).

(** * Properties *)

(** ** Lists and tables *)

Section ListFacts.
Context {A : Type}.

Lemma find_app_last (f : A -> bool) (l : list A) (y : A) :
  (forall x, In x l -> f x = false) -> f y = true -> find f (l ++ [y]) = Some y.
Proof.
  intros Hl Hy. induction l as [|x l IH]; cbn.
  - now rewrite Hy.
  - rewrite (Hl x (or_introl eq_refl)). apply IH. intros z Hz. apply Hl. now right.
Qed.

Lemma hd_filter_find (f : A -> bool) (l : list A) :
  hd_error (filter f l) = find f l.
Proof.
  induction l as [|x l IH]; cbn; [reflexivity|]. now destruct (f x).
Qed.

Lemma filter_true (l : list A) : filter (fun _ => true) l = l.
Proof. induction l as [|x l IH]; cbn; congruence. Qed.
End ListFacts.

(** ** Running the session primitives *)

Lemma rows_page {R} (sv : Server) (skip n : Z) (table : list R) :
  0 <= skip -> 0 <= n ->
  rows sv (limit n (offset skip select)) table =
  Returns (firstn (Z.to_nat n) (skipn (Z.to_nat skip) table)).
Proof.
  intros Hs Hn. unfold rows, limit, offset, select; cbn.
  destruct (Z.ltb_spec skip 0); [lia|]. destruct (Z.ltb_spec n 0); [lia|].
  now rewrite filter_true.
Qed.

Lemma rows_where {R} (sv : Server) (p : Server -> R -> bool) (table : list R) :
  rows sv (where_ p select) table = Returns (filter (p sv) table).
Proof. reflexivity. Qed.

Lemma get_db_user_run (id : Z) (s : Session) :
  get_db_user id s = (s, Returns (find (fun u => user_id u =? id) (users (bind s)))).
Proof.
  unfold get_db_user, bnd, execute_User, ret, first. rewrite rows_where.
  now rewrite hd_filter_find.
Qed.

Lemma get_db_user_by_email_run (e : string) (s : Session) :
  get_db_user_by_email e s =
  (s, Returns (find (fun u => email_eqb (bind s) (email u) e) (users (bind s)))).
Proof.
  unfold get_db_user_by_email, bnd, execute_User, ret, first. rewrite rows_where.
  now rewrite hd_filter_find.
Qed.

Lemma get_db_users_run (skip n : Z) (s : Session) :
  get_db_users skip n s =
  (s, match rows (server (bind s)) (limit n (offset skip select)) (users (bind s)) with
      | Returns l => Returns l
      | Raises x => Raises x
      end).
Proof.
  unfold get_db_users, bnd, execute_User, ret, all.
  now destruct (rows _ _ _).
Qed.

Lemma get_db_items_run (skip n : Z) (s : Session) :
  get_db_items skip n s =
  (s, match rows (server (bind s)) (limit n (offset skip select)) (items (bind s)) with
      | Returns l => Returns l
      | Raises x => Raises x
      end).
Proof.
  unfold get_db_items, bnd, execute_Item, ret, all.
  now destruct (rows _ _ _).
Qed.

Lemma UserResponse_from_orm_run (u : User) (s : Session) :
  UserResponse_from_orm u s = (s, Returns (UserResponse_of (bind s) u)).
Proof. reflexivity. Qed.

Lemma for_each_UserResponse_run (us : list User) (s : Session) :
  for_each UserResponse_from_orm us s =
  (s, Returns (map (UserResponse_of (bind s)) us)).
Proof.
  induction us as [|u us IH]; [reflexivity|].
  cbn [for_each map]. unfold bnd at 1. rewrite UserResponse_from_orm_run.
  unfold bnd at 1. now rewrite IH.
Qed.

(** ** INSERT and the schema *)

Lemma least_In (rank : Constraint -> nat) (c : Constraint) (l : list Constraint) :
  In (least rank c l) (c :: l).
Proof.
  revert c. induction l as [|c' l IH]; intros c; cbn [least]; [now left|].
  destruct (_ <? _)%nat.
  - right. apply IH.
  - destruct (IH c) as [H|H]; [now left|right; now right].
Qed.

Lemma reported_In (sv : Server) (l : list Constraint) (c : Constraint) :
  reported sv l = Some c -> In c l.
Proof.
  destruct l as [|c' l]; cbn; [discriminate|]. intros [= <-]. apply least_In.
Qed.

Lemma reported_None (sv : Server) (l : list Constraint) :
  reported sv l = None <-> l = [].
Proof. destruct l; cbn; split; congruence. Qed.

Lemma email_eqb_eq (d : Database) (x y : string) :
  email_eqb d x y = true <-> collation (server d) x = collation (server d) y.
Proof. apply String.eqb_eq. Qed.


Lemma existsb_email_taken (d : Database) (e : string) :
  existsb (fun u => email_eqb d (email u) e) (users d) = true <-> email_taken d e.
Proof.
  unfold email_taken. rewrite existsb_exists.
  split; intros (u & Hu & He); exists u; split; auto; now apply email_eqb_eq.
Qed.

Lemma find_email_None (d : Database) (e : string) :
  find (fun u => email_eqb d (email u) e) (users d) = None <-> ~ email_taken d e.
Proof.
  rewrite <- existsb_email_taken. split.
  - intros H E. apply existsb_exists in E as (u & Hu & He).
    rewrite (find_none _ _ H u Hu) in He. discriminate.
  - intros H. destruct (find _ _) as [u|] eqn:E; [|reflexivity].
    exfalso. apply H. apply find_some in E as [Hu He].
    apply existsb_exists. eauto.
Qed.

Lemma email_taken_same (d : Database) (u : User) :
  In u (users d) -> email_taken d (email u).
Proof. intros Hu. exists u. auto. Qed.

Lemma not_taken_fresh (d : Database) (e : string) :
  ~ email_taken d e -> forall u, In u (users d) -> email u <> e.
Proof. intros H u Hu <-. apply H. now apply email_taken_same. Qed.

Lemma existsb_user_id (o : Z) (l : list User) :
  existsb (fun u => user_id u =? o) l = true <-> exists u, In u l /\ user_id u = o.
Proof.
  rewrite existsb_exists. split; intros (u & Hu & He); exists u; split; auto;
    now apply Z.eqb_eq.
Qed.

(** What each broken constraint says about the row. *)
Lemma broken_by_user_In (e h : string) (d : Database) (c : Constraint) :
  In c (broken_by_user e h d) ->
  (exception_of c = DataError /\
   ~ ((String.length e <= email_size)%nat /\
      (String.length h <= hashed_password_size)%nat)) \/
  (exception_of c = IntegrityError /\ email_taken d e).
Proof.
  unfold broken_by_user. rewrite !in_app_iff. intros [H|[H|H]].
  - destruct (Nat.ltb_spec email_size (String.length e)); [|destruct H].
    destruct H as [<-|[]]. left. split; [reflexivity|lia].
  - destruct (Nat.ltb_spec hashed_password_size (String.length h)); [|destruct H].
    destruct H as [<-|[]]. left. split; [reflexivity|lia].
  - destruct (existsb _ _) eqn:E; [|destruct H]. destruct H as [<-|[]].
    right. split; [reflexivity|]. now apply existsb_email_taken.
Qed.

Lemma broken_by_user_nil (e h : string) (d : Database) :
  broken_by_user e h d = [] <->
  (String.length e <= email_size)%nat /\
  (String.length h <= hashed_password_size)%nat /\ ~ email_taken d e.
Proof.
  unfold broken_by_user. rewrite <- existsb_email_taken.
  destruct (Nat.ltb_spec email_size (String.length e)); cbn [app].
  - split; [discriminate|]. intros (? & _). lia.
  - destruct (Nat.ltb_spec hashed_password_size (String.length h)); cbn [app].
    + split; [discriminate|]. intros (_ & ? & _). lia.
    + destruct (existsb _ _); split; try discriminate.
      * intros (_ & _ & H'). now elim H'.
      * intros _. repeat split; auto; discriminate.
      * reflexivity.
Qed.

Lemma broken_by_item_In (t : string) (ds : option string) (o : Z) (d : Database)
      (c : Constraint) :
  In c (broken_by_item t ds o d) ->
  (exception_of c = DataError /\
   ((title_size < String.length t)%nat \/
    exists de, ds = Some de /\ (description_size < String.length de)%nat)) \/
  (exception_of c = IntegrityError /\
   (ds = None \/ ~ exists u, In u (users d) /\ user_id u = o)).
Proof.
  unfold broken_by_item. rewrite !in_app_iff. intros [H|[H|H]].
  - destruct (Nat.ltb_spec title_size (String.length t)); [|destruct H].
    destruct H as [<-|[]]. left. auto.
  - destruct ds as [de|].
    + destruct (Nat.ltb_spec description_size (String.length de)); [|destruct H].
      destruct H as [<-|[]]. left. split; [reflexivity|right]. eauto.
    + destruct H as [<-|[]]. right. auto.
  - destruct (existsb _ _) eqn:E; [destruct H|]. destruct H as [<-|[]].
    right. split; [reflexivity|right]. intros Hex.
    apply existsb_user_id in Hex. congruence.
Qed.

Lemma broken_by_item_nil (t : string) (ds : option string) (o : Z) (d : Database) :
  broken_by_item t ds o d = [] <->
  exists de, ds = Some de /\
    (String.length t <= title_size)%nat /\
    (String.length de <= description_size)%nat /\
    exists u, In u (users d) /\ user_id u = o.
Proof.
  unfold broken_by_item.
  destruct (Nat.ltb_spec title_size (String.length t)); cbn [app].
  - split; [discriminate|]. intros (de & _ & ? & _). lia.
  - destruct ds as [de|]; cbn [app].
    + destruct (Nat.ltb_spec description_size (String.length de)); cbn [app].
      * split; [discriminate|]. intros (de' & [= <-] & _ & ? & _). lia.
      * destruct (existsb _ _) eqn:E; split; try discriminate.
        -- intros _. exists de. repeat split; auto. now apply existsb_user_id.
        -- reflexivity.
        -- intros (de' & _ & _ & _ & H'). apply existsb_user_id in H'. congruence.
    + split; [discriminate|]. intros (de & H' & _). discriminate.
Qed.

Lemma insert_user_fits e h a d :
  (String.length e <= email_size)%nat ->
  (String.length h <= hashed_password_size)%nat ->
  ~ email_taken d e ->
  insert_user e h a d =
  Returns (users_auto_increment d,
           users_append (mkUser (users_auto_increment d) e h a) d).
Proof.
  intros He Hh Hfree. unfold insert_user.
  replace (broken_by_user e h d) with (@nil Constraint); [reflexivity|].
  symmetry. apply broken_by_user_nil. auto.
Qed.

(** The three ways an INSERT into [users] ends. *)
Lemma insert_user_cases (e h : string) (a : bool) (d : Database) :
  let fits := (String.length e <= email_size)%nat /\
              (String.length h <= hashed_password_size)%nat in
  (insert_user e h a d = Raises DataError /\ ~ fits) \/
  (insert_user e h a d = Raises IntegrityError /\ email_taken d e) \/
  (insert_user e h a d =
     Returns (users_auto_increment d,
              users_append (mkUser (users_auto_increment d) e h a) d) /\
   fits /\ ~ email_taken d e).
Proof.
  cbv zeta. unfold insert_user.
  destruct (reported (server d) (broken_by_user e h d)) as [c|] eqn:E.
  - apply reported_In, broken_by_user_In in E as [[-> H]|[-> H]]; auto.
  - apply reported_None, broken_by_user_nil in E. right. right. tauto.
Qed.

Lemma insert_user_Returns e h a d id d' :
  insert_user e h a d = Returns (id, d') ->
  id = users_auto_increment d /\ d' = users_append (mkUser id e h a) d /\
  ~ email_taken d e.
Proof.
  destruct (insert_user_cases e h a d) as [[-> _]|[[-> _]|(-> & _ & H)]];
    try discriminate.
  intros [= <- <-]. auto.
Qed.

Lemma insert_user_Raises e h a d x :
  insert_user e h a d = Raises x -> x = DataError \/ x = IntegrityError.
Proof.
  destruct (insert_user_cases e h a d) as [[-> _]|[[-> _]|(-> & _)]];
    intros [= <-]; auto.
Qed.

(** The three ways an INSERT into [items] ends. *)
Lemma insert_item_cases (t : string) (ds : option string) (o : Z) (d : Database) :
  let owner := exists u, In u (users d) /\ user_id u = o in
  (insert_item t ds o d = Raises DataError /\
     ((title_size < String.length t)%nat \/
      exists de, ds = Some de /\ (description_size < String.length de)%nat)) \/
  (insert_item t ds o d = Raises IntegrityError /\ (ds = None \/ ~ owner)) \/
  (exists de, ds = Some de /\
     insert_item t ds o d =
       Returns (items_auto_increment d, items_append (new_item d t de o) d) /\
     (String.length t <= title_size)%nat /\
     (String.length de <= description_size)%nat /\ owner).
Proof.
  cbv zeta. unfold insert_item.
  destruct (reported (server d) (broken_by_item t ds o d)) as [c|] eqn:E.
  - apply reported_In, broken_by_item_In in E as [[-> H]|[-> H]]; auto.
  - apply reported_None, broken_by_item_nil in E as (de & -> & Ht & Hl & Hown).
    right. right. exists de. auto.
Qed.

Lemma insert_item_Returns t ds o d id d' :
  insert_item t ds o d = Returns (id, d') ->
  exists de, ds = Some de /\ id = items_auto_increment d /\
             d' = items_append (mkItem id t de o) d /\
             exists u, In u (users d) /\ user_id u = o.
Proof.
  destruct (insert_item_cases t ds o d)
    as [[-> _]|[[-> _]|(de & Hde & -> & _ & _ & Hown)]]; try discriminate.
  intros [= <- <-]. exists de. auto.
Qed.

Lemma insert_item_Raises t ds o d x :
  insert_item t ds o d = Raises x -> x = DataError \/ x = IntegrityError.
Proof.
  destruct (insert_item_cases t ds o d) as [[-> _]|[[-> _]|(de & _ & -> & _)]];
    intros [= <-]; auto.
Qed.

Lemma insert_item_fits t de o d :
  (String.length t <= title_size)%nat ->
  (String.length de <= description_size)%nat ->
  (exists u, In u (users d) /\ user_id u = o) ->
  insert_item t (Some de) o d =
  Returns (items_auto_increment d, items_append (new_item d t de o) d).
Proof.
  intros Ht Hd Hown. unfold insert_item.
  replace (broken_by_item t (Some de) o d) with (@nil Constraint); [reflexivity|].
  symmetry. apply broken_by_item_nil. exists de. auto.
Qed.

Lemma insert_item_orphan t ds o d :
  (forall u, In u (users d) -> user_id u <> o) ->
  exists x, insert_item t ds o d = Raises x.
Proof.
  intros Hno. destruct (insert_item t ds o d) as [[id d']|x] eqn:E; [|eauto].
  apply insert_item_Returns in E as (_ & _ & _ & _ & u & Hu & Hid).
  now apply Hno in Hu.
Qed.

Lemma empty_database_consistent (sv : Server) : consistent (empty_database sv).
Proof.
  split; cbn; try (intros ? []); constructor.
Qed.

Lemma users_append_consistent (d : Database) (u : User) :
  consistent d ->
  user_id u = users_auto_increment d ->
  (forall v, In v (users d) -> email v <> email u) ->
  consistent (users_append u d).
Proof.
  intros [Hui Hun Hue Hii Hin Hfk] Hid Hfresh. split; cbn.
  - intros v [Hv | [<- | []]]%in_app_or; [specialize (Hui v Hv)|]; lia.
  - rewrite map_app. cbn. apply NoDup_app; [assumption|repeat constructor; intros []|].
    intros k Hk [<- | []]. apply in_map_iff in Hk as (v & Hv & Hin'). 
    specialize (Hui v Hin'). lia.
  - rewrite map_app. cbn. apply NoDup_app; [assumption|repeat constructor; intros []|].
    intros k Hk [<- | []]. apply in_map_iff in Hk as (v & Hv & Hin').
    now apply (Hfresh v Hin').
  - assumption.
  - assumption.
  - intros i Hi. destruct (Hfk i Hi) as (v & Hv & Hvo). exists v.
    split; [apply in_or_app; now left | assumption].
Qed.

Lemma items_append_consistent (d : Database) (i : Item) :
  consistent d ->
  item_id i = items_auto_increment d ->
  (exists u, In u (users d) /\ user_id u = owner_id i) ->
  consistent (items_append i d).
Proof.
  intros [Hui Hun Hue Hii Hin Hfk] Hid Hown. split; cbn; try assumption.
  - intros j [Hj | [<- | []]]%in_app_or; [specialize (Hii j Hj)|]; lia.
  - rewrite map_app. cbn. apply NoDup_app; [assumption|repeat constructor; intros []|].
    intros k Hk [<- | []]. apply in_map_iff in Hk as (j & Hj & Hin').
    specialize (Hii j Hin'). lia.
  - intros j [Hj | [<- | []]]%in_app_or; auto.
Qed.


(** ** Running the creating functions in a fresh session *)

Lemma create_db_user_run (user : UserCreateRequest) (d : Database) :
  create_db_user user (SessionLocal d) =
  match insert_user (req_email user)
          (req_password user ++ "notreallyhashed")%string true d with
  | Returns (id, d') => refresh_User 0 (mkSession d' [PersistentUser id])
  | Raises x =>
      (mkSession d [PendingUser (req_email user)
                      (req_password user ++ "notreallyhashed")%string true],
       Raises x)
  end.
Proof.
  unfold create_db_user, bnd, add, commit, SessionLocal; cbn.
  destruct (insert_user _ _ _ _) as [[id d']|x]; reflexivity.
Qed.

Lemma create_db_user_item_run (item : ItemCreateRequest) (o : Z) (d : Database) :
  create_db_user_item item o (SessionLocal d) =
  match insert_item (req_title item) (req_description item) o d with
  | Returns (id, d') => refresh_Item 0 (mkSession d' [PersistentItem id])
  | Raises x =>
      (mkSession d [PendingItem (req_title item) (req_description item) o],
       Raises x)
  end.
Proof.
  unfold create_db_user_item, bnd, add, commit, SessionLocal; cbn.
  destruct (insert_item _ _ _ _) as [[id d']|x]; reflexivity.
Qed.

Lemma refresh_new_user (d : Database) (u : User) :
  consistent d -> user_id u = users_auto_increment d ->
  refresh_User 0 (mkSession (users_append u d) [PersistentUser (user_id u)]) =
  (mkSession (users_append u d) [PersistentUser (user_id u)], Returns u).
Proof.
  intros Hd Hid. unfold refresh_User; cbn.
  rewrite find_app_last; [reflexivity| |apply Z.eqb_refl].
  intros v Hv. apply Z.eqb_neq. apply (users_pk_issued d Hd) in Hv. lia.
Qed.

Lemma refresh_new_item (d : Database) (i : Item) :
  consistent d -> item_id i = items_auto_increment d ->
  refresh_Item 0 (mkSession (items_append i d) [PersistentItem (item_id i)]) =
  (mkSession (items_append i d) [PersistentItem (item_id i)], Returns i).
Proof.
  intros Hd Hid. unfold refresh_Item; cbn.
  rewrite find_app_last; [reflexivity| |apply Z.eqb_refl].
  intros j Hj. apply Z.eqb_neq. apply (items_pk_issued d Hd) in Hj. lia.
Qed.

(** The store a request leaves: the one it found, or that one with the one
    row the request asked for. *)
Lemma create_db_user_store (user : UserCreateRequest) (d : Database) :
  let d' := fst (get_db (create_db_user user) d) in
  (d' = d /\ exists x, snd (get_db (create_db_user user) d) = Raises x) \/
  (d' = users_append (new_user d user) d /\
   ~ email_taken d (req_email user)).
Proof.
  unfold get_db. rewrite create_db_user_run.
  destruct (insert_user _ _ _ _) as [[id d']|x] eqn:E; cbn.
  - right. apply insert_user_Returns in E as (-> & -> & Hfresh).
    split; [|assumption].
    unfold refresh_User; cbn. now destruct (find _ _).
  - left. eauto.
Qed.

Lemma create_db_user_item_store (item : ItemCreateRequest) (o : Z) (d : Database) :
  let d' := fst (get_db (create_db_user_item item o) d) in
  (d' = d /\ exists x, snd (get_db (create_db_user_item item o) d) = Raises x) \/
  (exists de, req_description item = Some de /\
     d' = items_append (new_item d (req_title item) de o) d /\
     exists u, In u (users d) /\ user_id u = o).
Proof.
  unfold get_db. rewrite create_db_user_item_run.
  destruct (insert_item _ _ _ _) as [[id d']|x] eqn:E; cbn.
  - right. apply insert_item_Returns in E as (de & Hde & -> & -> & Hown).
    exists de. repeat split; [assumption| |assumption].
    unfold refresh_Item; cbn. now destruct (find _ _).
  - left. eauto.
Qed.

(** ** Running the routes *)

Lemma create_user_run (user : UserCreateRequest) (s : Session) :
  create_user user s =
  match find (fun u => email_eqb (bind s) (email u) (req_email user))
          (users (bind s)) with
  | Some _ => (s, Raises ConflictError)
  | None => create_db_user user s
  end.
Proof.
  unfold create_user, bnd. rewrite get_db_user_by_email_run.
  now destruct (find _ _).
Qed.

Lemma read_user_run (id : Z) (s : Session) :
  read_user id s =
  match find (fun u => user_id u =? id) (users (bind s)) with
  | Some u => (s, Returns u)
  | None => (s, Raises NotFoundError)
  end.
Proof.
  unfold read_user, bnd. rewrite get_db_user_run. now destruct (find _ _).
Qed.

Lemma serve_POST_users (d : Database) (user : UserCreateRequest) :
  serve d (POST_users user) =
  match get_db (create_user user) d with
  | (d', Returns u) => (d', Returns (UserBody (UserResponse_of d' u)))
  | (d', Raises x) => (d', Raises x)
  end.
Proof.
  unfold serve, get_db, route, bnd.
  destruct (create_user user (SessionLocal d)) as [s [u|x]]; reflexivity.
Qed.

Lemma serve_GET_users_id (d : Database) (id : Z) :
  serve d (GET_users_id id) =
  match find (fun u => user_id u =? id) (users d) with
  | Some u => (d, Returns (UserBody (UserResponse_of d u)))
  | None => (d, Raises NotFoundError)
  end.
Proof.
  unfold serve, get_db, route, bnd. rewrite read_user_run. cbn.
  now destruct (find _ _).
Qed.

Lemma serve_POST_users_id_items (d : Database) (o : Z) (item : ItemCreateRequest) :
  serve d (POST_users_id_items o item) =
  match get_db (create_db_user_item item o) d with
  | (d', Returns i) => (d', Returns (ItemBody (ItemResponse_from_orm i)))
  | (d', Raises x) => (d', Raises x)
  end.
Proof.
  unfold serve, get_db, route, bnd, create_item_for_user.
  destruct (create_db_user_item item o (SessionLocal d)) as [s [i|x]]; reflexivity.
Qed.

Lemma serve_GET_users (d : Database) (skip n : option Z) :
  serve d (GET_users skip n) =
  (d, match rows (server d) (limit (or_default 100 n) (offset (or_default 0 skip) select))
              (users d) with
      | Returns us => Returns (UserListBody (map (UserResponse_of d) us))
      | Raises x => Raises x
      end).
Proof.
  unfold serve, get_db, route, bnd, read_users. rewrite get_db_users_run. cbn.
  destruct (rows _ _ _) as [us|x]; [|reflexivity].
  now rewrite for_each_UserResponse_run.
Qed.

Lemma serve_GET_items (d : Database) (skip n : option Z) :
  serve d (GET_items skip n) =
  (d, match rows (server d) (limit (or_default 100 n) (offset (or_default 0 skip) select))
              (items d) with
      | Returns its => Returns (ItemListBody (map ItemResponse_from_orm its))
      | Raises x => Raises x
      end).
Proof.
  unfold serve, get_db, route, bnd, read_items. rewrite get_db_items_run. cbn.
  now destruct (rows _ _ _) as [its|x].
Qed.

Lemma create_user_store (user : UserCreateRequest) (d : Database) :
  let d' := fst (get_db (create_user user) d) in
  (d' = d /\ exists x, snd (get_db (create_user user) d) = Raises x) \/
  (d' = users_append (new_user d user) d /\
   ~ email_taken d (req_email user)).
Proof.
  pose proof (create_db_user_store user d) as H.
  unfold get_db in *. rewrite create_user_run.
  cbn [bind SessionLocal] in *.
  destruct (find _ _); [left; cbn; eauto | exact H].
Qed.

(** Every request keeps the store consistent with the schema. *)
Lemma serve_consistent (d : Database) (r : Request) :
  consistent d -> consistent (fst (serve d r)).
Proof.
  intros Hd. destruct r as [user|skip n|id|o item|skip n].
  - rewrite serve_POST_users.
    destruct (create_user_store user d) as [[H _]|[H Hfresh]];
      destruct (get_db (create_user user) d) as [d' [u|x]]; cbn in *; subst d';
      try assumption;
      (apply users_append_consistent;
       [assumption|reflexivity|exact (not_taken_fresh d _ Hfresh)]).
  - now rewrite serve_GET_users.
  - rewrite serve_GET_users_id. now destruct (find _ _).
  - rewrite serve_POST_users_id_items.
    destruct (create_db_user_item_store item o d) as [[H _]|(de & _ & H & Hown)];
      destruct (get_db (create_db_user_item item o) d) as [d' [i|x]]; cbn in *; subst d';
      try assumption; now apply items_append_consistent.
  - now rewrite serve_GET_items.
Qed.

Lemma serve_all_consistent (rs : list Request) (d : Database) :
  consistent d -> consistent (serve_all rs d).
Proof.
  revert d. induction rs as [|r rs IH]; intros d Hd; [assumption|].
  cbn. apply IH. now apply serve_consistent.
Qed.

Lemma create_db_user_Raises (user : UserCreateRequest) (d : Database) (x : Exception) :
  snd (get_db (create_db_user user) d) = Raises x ->
  x = DataError \/ x = IntegrityError \/ x = InvalidRequestError.
Proof.
  unfold get_db. rewrite create_db_user_run.
  destruct (insert_user _ _ _ _) as [[id d']|y] eqn:E; cbn.
  - unfold refresh_User; cbn. destruct (find _ _); cbn; [discriminate|].
    intros [= <-]. auto.
  - intros [= <-]. apply insert_user_Raises in E. tauto.
Qed.

Lemma find_user_id_None (id : Z) (l : list User) :
  find (fun u => user_id u =? id) l = None <->
  forall u, In u l -> user_id u <> id.
Proof.
  split.
  - intros H u Hu. apply Z.eqb_neq. now apply (find_none _ _ H).
  - intros H. destruct (find _ l) as [u|] eqn:E; [|reflexivity].
    apply find_some in E as [Hu He]. apply Z.eqb_eq in He.
    now apply H in Hu.
Qed.


(** ** The claims *)

(** C1, as the code has it.  When the email of the request is the email of
    a stored account, [create_user] (and so [POST /users/]) raises
    [HTTPException(400, "Email already registered")] and the store is the one
    it found.  It raises that exception exactly when a stored account has an
    email the server takes for equal to the request's: the lookup is
    [WHERE users.email = ...], decided by the collation of the column, so on
    a server that ignores case also for an email that differs in case
    only. *)
Theorem create_user_duplicate_email (d : Database) (user : UserCreateRequest) :
  ((exists u, In u (users d) /\ email u = req_email user) ->
     get_db (create_user user) d = (d, Raises ConflictError) /\
     serve d (POST_users user) = (d, Raises ConflictError)) /\
  (email_taken d (req_email user) ->
     get_db (create_user user) d = (d, Raises ConflictError) /\
     serve d (POST_users user) = (d, Raises ConflictError)) /\
  (snd (get_db (create_user user) d) = Raises ConflictError ->
     email_taken d (req_email user)) /\
  (snd (serve d (POST_users user)) = Raises ConflictError ->
     email_taken d (req_email user)).
Proof.
  assert (Hh : snd (get_db (create_user user) d) = Raises ConflictError ->
               email_taken d (req_email user)).
  { unfold get_db. rewrite create_user_run. cbn [bind SessionLocal].
    destruct (find _ _) as [u|] eqn:E.
    - intros _. apply find_some in E as [Hu He]. apply email_eqb_eq in He.
      exists u. auto.
    - intros H. apply create_db_user_Raises in H as [H|[H|H]]; discriminate. }
  assert (Hd : email_taken d (req_email user) ->
               get_db (create_user user) d = (d, Raises ConflictError)).
  { intros Ht. unfold get_db. rewrite create_user_run.
    cbn [bind SessionLocal].
    destruct (find _ _) as [v|] eqn:E; [reflexivity|].
    now apply find_email_None in E. }
  assert (Hs : email_taken d (req_email user) ->
               serve d (POST_users user) = (d, Raises ConflictError)).
  { intros Ht. rewrite serve_POST_users. now rewrite (Hd Ht). }
  split; [|split; [|split]].
  - intros (u & Hu & He).
    assert (Ht : email_taken d (req_email user))
      by (rewrite <- He; now apply email_taken_same).
    auto.
  - auto.
  - exact Hh.
  - rewrite serve_POST_users. intros H. apply Hh.
    destruct (get_db (create_user user) d) as [d' [u|x]]; [discriminate|].
    cbn in *. now injection H as ->.
Qed.

(** C7. [read_user] (and so [GET /users/{user_id}]) raises
    [HTTPException(404, "User not found")] exactly when no stored account has
    the id; when one has, the response is that account converted to
    [UserResponse], and the store is untouched. *)
Theorem read_user_not_found_iff (d : Database) (id : Z) :
  (snd (get_db (read_user id) d) = Raises NotFoundError <->
     forall u, In u (users d) -> user_id u <> id) /\
  (snd (serve d (GET_users_id id)) = Raises NotFoundError <->
     forall u, In u (users d) -> user_id u <> id) /\
  ((exists u, In u (users d) /\ user_id u = id) ->
     exists u, In u (users d) /\ user_id u = id /\
       get_db (read_user id) d = (d, Returns u) /\
       serve d (GET_users_id id) = (d, Returns (UserBody (UserResponse_of d u)))).
Proof.
  unfold get_db. rewrite read_user_run, serve_GET_users_id. cbn [bind SessionLocal].
  rewrite <- find_user_id_None.
  destruct (find _ _) as [u|] eqn:E; cbn.
  - repeat split; try discriminate.
    intros _. apply find_some in E as [Hu He]. apply Z.eqb_eq in He. eauto.
  - repeat split; try reflexivity.
    intros (u & Hu & He). rewrite find_user_id_None in E. now apply E in Hu.
Qed.

(** C10. The four reading functions leave the session, and with it the
    store, as they found it, whatever their arguments and whether the
    statement is accepted or not. *)
Theorem reads_leave_store_unchanged (s : Session) :
  (forall id, fst (get_db_user id s) = s) /\
  (forall e, fst (get_db_user_by_email e s) = s) /\
  (forall skip n, fst (get_db_users skip n s) = s) /\
  (forall skip n, fst (get_db_items skip n s) = s) /\
  (forall d id, fst (get_db (get_db_user id) d) = d) /\
  (forall d e, fst (get_db (get_db_user_by_email e) d) = d) /\
  (forall d skip n, fst (get_db (get_db_users skip n) d) = d) /\
  (forall d skip n, fst (get_db (get_db_items skip n) d) = d).
Proof.
  repeat split; intros; unfold get_db;
    rewrite ?get_db_user_run, ?get_db_user_by_email_run,
            ?get_db_users_run, ?get_db_items_run; reflexivity.
Qed.

Lemma string_length_append (a b : string) :
  String.length (a ++ b)%string = (String.length a + String.length b)%nat.
Proof. induction a as [|c a IH]; cbn; [reflexivity|now rewrite IH]. Qed.

Lemma NoDup_map_eq {A B} (f : A -> B) (l : list A) (x y : A) :
  NoDup (map f l) -> In x l -> In y l -> f x = f y -> x = y.
Proof.
  induction l as [|a l IH]; cbn; [intros _ []|].
  intros Hnd Hx Hy Hf. inversion Hnd as [|? ? Hnotin Hnd']; subst.
  destruct Hx as [<-|Hx], Hy as [<-|Hy]; auto.
  - exfalso. apply Hnotin. rewrite Hf. now apply in_map.
  - exfalso. apply Hnotin. rewrite <- Hf. now apply in_map.
Qed.

Lemma no_items_of_unissued_user (d : Database) :
  consistent d ->
  filter (fun i => owner_id i =? users_auto_increment d) (items d) = [].
Proof.
  intros Hd. destruct (filter _ _) as [|i l] eqn:E; [reflexivity|].
  assert (Hi : In i (filter (fun i => owner_id i =? users_auto_increment d) (items d)))
    by (rewrite E; now left).
  apply filter_In in Hi as [Hi Ho]. apply Z.eqb_eq in Ho.
  destruct (items_owner_fk d Hd i Hi) as (u & Hu & Hid).
  apply (users_pk_issued d Hd) in Hu. lia.
Qed.

(** C2. After any sequence of requests served one after the other from the
    empty store, no two stored accounts have the same email; a
    [POST /users/] that repeats a stored email leaves the store as it was. *)
Theorem reachable_emails_unique (sv : Server) (rs : list Request) :
  let d := serve_all rs (empty_database sv) in
  NoDup (map email (users d)) /\
  (forall u v, In u (users d) -> In v (users d) -> email u = email v -> u = v) /\
  (forall user u, In u (users d) -> email u = req_email user ->
     fst (serve d (POST_users user)) = d).
Proof.
  cbv zeta.
  pose proof (serve_all_consistent rs _ (empty_database_consistent sv)) as Hd.
  set (d := serve_all rs (empty_database sv)) in *.
  split; [apply (users_email_unique d Hd)|split].
  - intros u v Hu Hv He. eapply NoDup_map_eq; eauto. apply (users_email_unique d Hd).
  - intros user u Hu He. rewrite serve_POST_users.
    destruct (create_user_store user d) as [[H _]|[_ Hfresh]].
    + now destruct (get_db (create_user user) d) as [d' [v|x]].
    + elim Hfresh. rewrite <- He. now apply email_taken_same.
Qed.

(** C3, as the code has it.  On a store consistent with the schema, a
    request whose email the server takes for equal to no stored email and
    whose email and password fit the columns ([email] at most 100
    characters, [password] at most 85, so that the derived secret fits in
    100) succeeds: the row is appended and the response has the generated id
    (an id no stored account has), the request's email, [is_active = true]
    and no items.  The response of a user does not depend on its
    [hashed_password]. *)
Theorem create_user_fresh_email (d : Database) (user : UserCreateRequest) :
  consistent d ->
  ~ email_taken d (req_email user) ->
  (String.length (req_email user) <= email_size)%nat ->
  (String.length (req_password user) + 15 <= hashed_password_size)%nat ->
  serve d (POST_users user) =
    (users_append (new_user d user) d,
     Returns (UserBody
       (mkUserResponse (req_email user) (users_auto_increment d) true []))) /\
  (forall u, In u (users d) -> user_id u <> users_auto_increment d) /\
  (forall (s : Session) (u : User) (h : string),
     UserResponse_from_orm (mkUser (user_id u) (email u) h (is_active u)) s =
     UserResponse_from_orm u s).
Proof.
  intros Hd Hfresh He Hp. split; [|split].
  - rewrite serve_POST_users. unfold get_db. rewrite create_user_run.
    cbn [bind SessionLocal].
    replace (find _ (users d)) with (@None User)
      by (symmetry; now apply find_email_None).
    rewrite create_db_user_run, insert_user_fits; try assumption.
    + rewrite (refresh_new_user d (mkUser _ _ _ _) Hd eq_refl).
      cbn [bind]. unfold UserResponse_of, new_user. cbn.
      now rewrite (no_items_of_unissued_user d Hd).
    + rewrite string_length_append. cbn. lia.
  - intros u Hu. apply (users_pk_issued d Hd) in Hu. lia.
  - reflexivity.
Qed.

(** C9. [create_db_user] either raises and leaves the rows of [users] as
    they were, or appends exactly one row, whose [hashed_password] is the
    request's password followed by ["notreallyhashed"] and whose [is_active]
    is [True]; it appends whenever the server takes the email for equal to
    no stored one and both strings fit their columns. *)
Theorem create_db_user_secret (d : Database) (user : UserCreateRequest) :
  let d' := fst (get_db (create_db_user user) d) in
  let row := mkUser (users_auto_increment d) (req_email user)
               (req_password user ++ "notreallyhashed")%string true in
  ((users d' = users d /\ exists x, snd (get_db (create_db_user user) d) = Raises x) \/
   users d' = users d ++ [row]) /\
  (~ email_taken d (req_email user) /\
   (String.length (req_email user) <= email_size)%nat /\
   (String.length (req_password user) + 15 <= hashed_password_size)%nat ->
   users d' = users d ++ [row]).
Proof.
  cbv zeta. split.
  - destruct (create_db_user_store user d) as [[-> Hx]|[-> _]]; [left|right]; auto.
  - intros (Hfresh & He & Hp). unfold get_db.
    rewrite create_db_user_run, insert_user_fits; try assumption.
    + unfold refresh_User; cbn. now destruct (find _ _).
    + rewrite string_length_append. cbn. lia.
Qed.

Lemma create_db_user_item_Raises (item : ItemCreateRequest) (o : Z) (d : Database)
      (x : Exception) :
  snd (get_db (create_db_user_item item o) d) = Raises x ->
  x = DataError \/ x = IntegrityError \/ x = InvalidRequestError.
Proof.
  unfold get_db. rewrite create_db_user_item_run.
  destruct (insert_item _ _ _ _) as [[id d']|y] eqn:E; cbn.
  - unfold refresh_Item; cbn. destruct (find _ _); cbn; [discriminate|].
    intros [= <-]. auto.
  - intros [= <-]. apply insert_item_Raises in E. tauto.
Qed.

Lemma serve_POST_users_id_items_fits (d : Database) (o : Z) (item : ItemCreateRequest)
      (de : string) :
  consistent d ->
  (exists u, In u (users d) /\ user_id u = o) ->
  req_description item = Some de ->
  (String.length (req_title item) <= title_size)%nat ->
  (String.length de <= description_size)%nat ->
  serve d (POST_users_id_items o item) =
    (items_append (new_item d (req_title item) de o) d,
     Returns (ItemBody
       (mkItemResponse (req_title item) (Some de) (items_auto_increment d) o))).
Proof.
  intros Hd Hown Hde Ht Hl.
  rewrite serve_POST_users_id_items. unfold get_db.
  rewrite create_db_user_item_run, Hde, insert_item_fits; try assumption.
  pose proof (refresh_new_item d (new_item d (req_title item) de o) Hd eq_refl) as Hr.
  cbn [item_id new_item] in Hr. now rewrite Hr.
Qed.

Lemma serve_POST_users_id_items_orphan (d : Database) (o : Z) (item : ItemCreateRequest) :
  (forall u, In u (users d) -> user_id u <> o) ->
  fst (serve d (POST_users_id_items o item)) = d /\
  exists x, snd (serve d (POST_users_id_items o item)) = Raises x.
Proof.
  intros Hno. rewrite serve_POST_users_id_items. unfold get_db.
  rewrite create_db_user_item_run.
  destruct (insert_item_orphan (req_title item) (req_description item) o d Hno)
    as [x ->].
  cbn. eauto.
Qed.

(** C6. For non-negative [skip] and [limit], [get_db_users] returns the
    stored accounts in table order without the first [skip] and cut after
    [limit], and [GET /users/] returns their responses; with 150 stored
    accounts, [skip=100, limit=100] gives exactly the last 50; the route's
    defaults are [skip=0] and [limit=100]. *)
Theorem get_db_users_page (d : Database) (skip n : Z) :
  0 <= skip -> 0 <= n ->
  let page := firstn (Z.to_nat n) (skipn (Z.to_nat skip) (users d)) in
  get_db (get_db_users skip n) d = (d, Returns page) /\
  serve d (GET_users (Some skip) (Some n)) =
    (d, Returns (UserListBody (map (UserResponse_of d) page))) /\
  (List.length (users d) = 150%nat ->
     get_db (get_db_users 100 100) d = (d, Returns (skipn 100 (users d))) /\
     List.length (skipn 100 (users d)) = 50%nat) /\
  read_users None None = get_db_users 0 100 /\
  serve d (GET_users None None) = serve d (GET_users (Some 0) (Some 100)).
Proof.
  intros Hs Hn page. repeat split.
  - unfold get_db. rewrite get_db_users_run. cbn [bind SessionLocal].
    now rewrite rows_page.
  - rewrite serve_GET_users. cbn [or_default]. now rewrite rows_page.
  - unfold get_db. rewrite get_db_users_run. cbn [bind SessionLocal].
    rewrite rows_page by lia.
    change (Z.to_nat 100) with 100%nat.
    rewrite firstn_all2; [reflexivity|]. rewrite length_skipn. lia.
  - rewrite length_skipn. lia.
Qed.

(** C8. The response of a user carries its [id], [email] and [is_active]
    unchanged, and the ids of its items are exactly the ids of the stored
    items it owns; the user is recovered from the response and its
    [hashed_password] alone. *)
Theorem UserResponse_round_trip (s : Session) (u : User) :
  let r := UserResponse_of (bind s) u in
  UserResponse_from_orm u s = (s, Returns r) /\
  resp_user_id r = user_id u /\
  resp_email r = email u /\
  resp_is_active r = is_active u /\
  (forall k, In k (map resp_item_id (resp_items r)) <->
             exists i, In i (items (bind s)) /\ owner_id i = user_id u /\ item_id i = k) /\
  mkUser (resp_user_id r) (resp_email r) (hashed_password u) (resp_is_active r) = u.
Proof.
  cbv zeta. repeat split; try reflexivity.
  - cbn. rewrite map_map. cbn. intros Hk.
    apply in_map_iff in Hk as (i & Hid & Hi). apply filter_In in Hi as [Hi Ho].
    apply Z.eqb_eq in Ho. eauto.
  - intros (i & Hi & Ho & Hid). cbn. rewrite map_map. cbn.
    apply in_map_iff. exists i. split; [assumption|].
    apply filter_In. split; [assumption|now apply Z.eqb_eq].
  - now destruct u.
Qed.

Lemma page_covers_last {R} (sv : Server) (skip n : Z) (table : list R) (x : R) :
  0 <= skip <= Z.of_nat (List.length table) ->
  Z.of_nat (List.length table) < skip + n ->
  exists l,
    rows sv (limit n (offset skip select)) (table ++ [x]) = Returns l /\ In x l.
Proof.
  intros Hs Hn. rewrite rows_page by lia. eexists. split; [reflexivity|].
  rewrite skipn_app.
  replace (Z.to_nat skip - List.length table)%nat with 0%nat by lia.
  cbn [skipn]. rewrite firstn_all2.
  - apply in_or_app. right. now left.
  - rewrite length_app, length_skipn. cbn. lia.
Qed.

(** C4, as the code has it.  [create_item_for_user] checks nothing itself:
    whatever the request, it never raises an [HTTPException].  When
    [owner_id] is the id of a stored account and the request fits the
    columns of [items] (a title of at most 30 characters, a description that
    is present and of at most 30 characters), the row is appended with that
    [owner_id] and returned with its generated id, an id no stored item has.
    When no stored account has that id, whatever the request, the foreign
    key of [items.owner_id] refuses the row: the request raises and the
    store is as it was. *)
Theorem create_item_for_user_owner (d : Database) (o : Z) (item : ItemCreateRequest)
        (de : string) :
  consistent d ->
  (exists u, In u (users d) /\ user_id u = o) ->
  req_description item = Some de ->
  (String.length (req_title item) <= title_size)%nat ->
  (String.length de <= description_size)%nat ->
  serve d (POST_users_id_items o item) =
    (items_append (new_item d (req_title item) de o) d,
     Returns (ItemBody
       (mkItemResponse (req_title item) (Some de) (items_auto_increment d) o))) /\
  (forall i, In i (items d) -> item_id i <> items_auto_increment d) /\
  (forall d0 o0 item0 c m,
     snd (serve d0 (POST_users_id_items o0 item0)) <> Raises (HTTPException c m)) /\
  (forall d0 o0 item0,
     (forall u, In u (users d0) -> user_id u <> o0) ->
     fst (serve d0 (POST_users_id_items o0 item0)) = d0 /\
     exists x, snd (serve d0 (POST_users_id_items o0 item0)) = Raises x).
Proof.
  intros Hd Hown Hde Ht Hl. repeat split.
  - now apply serve_POST_users_id_items_fits.
  - intros i Hi. apply (items_pk_issued d Hd) in Hi. lia.
  - intros d0 o0 item0 c m. rewrite serve_POST_users_id_items.
    destruct (get_db (create_db_user_item item0 o0) d0) as [d' [i|x]] eqn:E;
      [discriminate|].
    cbn. intros [= ->].
    assert (H : snd (get_db (create_db_user_item item0 o0) d0)
                = Raises (HTTPException c m)) by now rewrite E.
    apply create_db_user_item_Raises in H as [H|[H|H]]; discriminate.
  - now apply serve_POST_users_id_items_orphan.
  - now apply serve_POST_users_id_items_orphan.
Qed.

(** C5, as the code has it.  When [owner_id = X] is the id of a stored
    account and the request has a title of at most 30 characters and a
    description that is present and of at most 30 characters, then after
    [POST /users/X/items/] a [GET /items/] whose page reaches the end of the
    table ([skip] at most the number of items stored before, and fewer than
    [skip + limit] of them; with the defaults: fewer than 100) lists an
    [ItemResponse] with [owner_id = X] and the submitted title and
    description. *)
Theorem created_item_is_listed (d : Database) (o : Z) (item : ItemCreateRequest)
        (de : string) (skip n : option Z) :
  consistent d ->
  (exists u, In u (users d) /\ user_id u = o) ->
  req_description item = Some de ->
  (String.length (req_title item) <= title_size)%nat ->
  (String.length de <= description_size)%nat ->
  0 <= or_default 0 skip <= Z.of_nat (List.length (items d)) ->
  Z.of_nat (List.length (items d)) < or_default 0 skip + or_default 100 n ->
  let d' := fst (serve d (POST_users_id_items o item)) in
  exists its,
    serve d' (GET_items skip n) = (d', Returns (ItemListBody its)) /\
    In (mkItemResponse (req_title item) (req_description item)
          (items_auto_increment d) o) its.
Proof.
  intros Hd Hown Hde Ht Hl Hs Hn.
  rewrite (serve_POST_users_id_items_fits d o item de) by assumption.
  cbn [fst]. rewrite serve_GET_items. cbn [server items items_append].
  destruct (page_covers_last (server d) (or_default 0 skip) (or_default 100 n) (items d)
              (new_item d (req_title item) de o) Hs Hn) as (l & -> & Hin).
  eexists. split; [reflexivity|].
  rewrite Hde.
  change (mkItemResponse (req_title item) (Some de) (items_auto_increment d) o)
    with (ItemResponse_from_orm (new_item d (req_title item) de o)).
  now apply in_map.
Qed.

(** ** The claims on sample stores *)

Lemma alice_only_consistent : consistent alice_only.
Proof. apply serve_all_consistent, empty_database_consistent. Qed.

Lemma hundred_fifty_users_length : List.length (users hundred_fifty_users) = 150%nat.
Proof. vm_compute. reflexivity. Qed.

(** C3 as stated fails: on the empty store every email is new, but the
    101-character email does not fit [String(100)]; the request raises and no
    account is stored. *)
Lemma create_user_long_email_rejected :
  (forall u, In u (users (empty_database default_server)) -> email u <> long_email) /\
  serve (empty_database default_server)
    (POST_users (mkUserCreateRequest long_email "wonderland")) =
    (empty_database default_server, Raises DataError).
Proof. split; [intros u []|vm_compute; reflexivity]. Qed.

(** C1 as stated fails in its second half: on a server that compares emails
    without regard to case, alice's email in capitals is the email of no
    stored account, and the request is refused with 400 all the same. *)
Lemma create_user_other_case_refused :
  (forall u, In u (users alice_only) -> email u <> "ALICE@EXAMPLE.COM") /\
  serve alice_only (POST_users (mkUserCreateRequest "ALICE@EXAMPLE.COM" "looking-glass")) =
    (alice_only, Raises ConflictError).
Proof.
  split; [|vm_compute; reflexivity].
  intros u Hu. vm_compute in Hu. destruct Hu as [<-|[]]. discriminate.
Qed.

Lemma create_user_fresh_email_bob :
  serve alice_only (POST_users bob) =
    (users_append (new_user alice_only bob) alice_only,
     Returns (UserBody (mkUserResponse "bob@example.com" 2 true []))).
Proof.
  apply (create_user_fresh_email alice_only bob).
  - exact alice_only_consistent.
  - intros (u & Hu & He). vm_compute in Hu. destruct Hu as [<-|[]].
    vm_compute in He. discriminate He.
  - vm_compute. lia.
  - vm_compute. lia.
Defined.

(** C4 as stated fails: no account has id 1 in the empty store, and the
    request for owner 1 raises; no item is stored. *)
Lemma create_item_absent_owner_rejected :
  (forall u, In u (users (empty_database default_server)) -> user_id u <> 1) /\
  serve (empty_database default_server) (POST_users_id_items 1 milk) =
    (empty_database default_server, Raises IntegrityError).
Proof. split; [intros u []|vm_compute; reflexivity]. Qed.

Lemma create_item_for_user_owner_alice :
  serve alice_only (POST_users_id_items 1 milk) =
    (items_append (new_item alice_only "milk" "two litres" 1) alice_only,
     Returns (ItemBody (mkItemResponse "milk" (Some "two litres") 1 1))).
Proof.
  apply (create_item_for_user_owner alice_only 1 milk "two litres").
  - exact alice_only_consistent.
  - eexists. split; [left; reflexivity|reflexivity].
  - reflexivity.
  - vm_compute. lia.
  - vm_compute. lia.
Defined.

(** C5 as stated fails.  With a hundred items stored, a well-formed item of
    an existing owner is stored as the 101st row and the listing with the
    route's defaults ends before it; and for an owner that is not stored
    nothing is created, so the listing is empty. *)
Lemma created_item_not_listed :
  In (mkUser 1 "alice@example.com" "wonderlandnotreallyhashed" true)
     (users hundred_items) /\
  (let d' := fst (serve hundred_items (POST_users_id_items 1 bread)) in
   List.length (items d') = 101%nat /\
   In (mkItem 101 "bread" "wholemeal" 1) (items d') /\
   match snd (serve d' (GET_items None None)) with
   | Returns (ItemListBody its) =>
       existsb (fun r => String.eqb (resp_title r) "bread") its = false
   | _ => False
   end) /\
  (let d' := fst (serve (empty_database default_server) (POST_users_id_items 7 milk)) in
   serve d' (GET_items None None) = (d', Returns (ItemListBody []))).
Proof.
  split; [|split].
  - vm_compute. left. reflexivity.
  - cbv zeta. split; [vm_compute; reflexivity|split].
    + vm_compute. do 100 right. left. reflexivity.
    + vm_compute. reflexivity.
  - vm_compute. reflexivity.
Qed.

Lemma created_item_is_listed_alice :
  let d' := fst (serve alice_only (POST_users_id_items 1 milk)) in
  exists its,
    serve d' (GET_items None None) = (d', Returns (ItemListBody its)) /\
    In (mkItemResponse "milk" (Some "two litres") 1 1) its.
Proof.
  apply (created_item_is_listed alice_only 1 milk "two litres" None None).
  - exact alice_only_consistent.
  - eexists. split; [left; reflexivity|reflexivity].
  - reflexivity.
  - vm_compute. lia.
  - vm_compute. lia.
  - cbn. lia.
  - cbn. lia.
Defined.

Lemma get_db_users_page_150 :
  get_db (get_db_users 100 100) hundred_fifty_users =
    (hundred_fifty_users, Returns (skipn 100 (users hundred_fifty_users))) /\
  List.length (skipn 100 (users hundred_fifty_users)) = 50%nat.
Proof.
  assert (H0 : 0 <= 100) by (intros H; discriminate H).
  destruct (get_db_users_page hundred_fifty_users 100 100 H0 H0) as (_ & _ & H & _ & _).
  exact (H hundred_fifty_users_length).
Defined.

(** The request model admits an item without description, the column does
    not: such a request raises and stores nothing. *)
Example create_item_without_description :
  serve alice_only (POST_users_id_items 1 (mkItemCreateRequest "milk" None)) =
    (alice_only, Raises IntegrityError).
Proof. vm_compute. reflexivity. Qed.

(** A row that breaks two constraints: which exception is raised depends on
    the order in which the server tests them, nothing is stored either way. *)
Example create_item_long_title_without_description :
  let item := mkItemCreateRequest (string_repeat "t"%char 31) None in
  let d := serve_all [POST_users alice] (empty_database other_order_server) in
  serve alice_only (POST_users_id_items 1 item) = (alice_only, Raises DataError) /\
  serve d (POST_users_id_items 1 item) = (d, Raises IntegrityError).
Proof. split; vm_compute; reflexivity. Qed.

(** A hundred and fifty accounts created one by one, then the second page. *)
Example second_page_of_150 :
  match serve hundred_fifty_users (GET_users (Some 100) (Some 100)) with
  | (d', Returns (UserListBody us)) =>
      d' = hundred_fifty_users /\
      List.length us = 50%nat /\
      map resp_user_id us = map Z.of_nat (seq 101 50)
  | _ => False
  end.
Proof. vm_compute. repeat split. Qed.


(** ** Further properties of the routes *)

Lemma find_app_last_some {A} (f : A -> bool) (l : list A) (y : A) :
  f y = true -> exists x, find f (l ++ [y]) = Some x /\ In x (l ++ [y]) /\ f x = true.
Proof.
  intros Hy. destruct (find f (l ++ [y])) as [x|] eqn:E.
  - exists x. apply find_some in E as [Hin Hx]. auto.
  - exfalso. pose proof (find_none _ _ E y) as H.
    rewrite H in Hy; [discriminate|]. apply in_or_app. right. now left.
Qed.

(** What [create_db_user] does in a fresh session: the INSERT is refused and
    nothing changes, or the row is appended and a row with the new key is
    returned. *)
Lemma create_db_user_outcome (user : UserCreateRequest) (d : Database) :
  (exists x,
     get_db (create_db_user user) d = (d, Raises x) /\
     insert_user (req_email user)
       (req_password user ++ "notreallyhashed")%string true d = Raises x) \/
  (exists u,
     get_db (create_db_user user) d = (users_append (new_user d user) d, Returns u) /\
     In u (users d ++ [new_user d user]) /\
     user_id u = users_auto_increment d /\
     ~ email_taken d (req_email user)).
Proof.
  unfold get_db. rewrite create_db_user_run.
  destruct (insert_user _ _ _ _) as [[id d']|x] eqn:E.
  - right. apply insert_user_Returns in E as (-> & -> & Hfresh).
    destruct (find_app_last_some (fun u => user_id u =? users_auto_increment d)
                (users d) (new_user d user) (Z.eqb_refl _)) as (u & Hf & Hin & Hid).
    exists u. unfold refresh_User. cbn [nth_error instances bind users users_append].
    unfold new_user in Hf. rewrite Hf. cbn. apply Z.eqb_eq in Hid. auto.
  - left. exists x. auto.
Qed.

Lemma create_db_user_item_outcome (item : ItemCreateRequest) (o : Z) (d : Database) :
  (exists x,
     get_db (create_db_user_item item o) d = (d, Raises x) /\
     insert_item (req_title item) (req_description item) o d = Raises x) \/
  (exists de i,
     req_description item = Some de /\
     get_db (create_db_user_item item o) d =
       (items_append (new_item d (req_title item) de o) d, Returns i) /\
     In i (items d ++ [new_item d (req_title item) de o]) /\
     item_id i = items_auto_increment d /\
     exists u, In u (users d) /\ user_id u = o).
Proof.
  unfold get_db. rewrite create_db_user_item_run.
  destruct (insert_item _ _ _ _) as [[id d']|x] eqn:E.
  - right. apply insert_item_Returns in E as (de & Hde & -> & -> & Hown).
    destruct (find_app_last_some (fun i => item_id i =? items_auto_increment d)
                (items d) (new_item d (req_title item) de o) (Z.eqb_refl _))
      as (i & Hf & Hin & Hid).
    exists de, i. unfold refresh_Item. cbn [nth_error instances bind items items_append].
    unfold new_item in Hf. rewrite Hf. cbn. apply Z.eqb_eq in Hid. auto.
  - left. exists x. auto.
Qed.

Lemma create_user_outcome (user : UserCreateRequest) (d : Database) :
  (exists x,
     get_db (create_user user) d = (d, Raises x) /\
     (x = ConflictError /\ email_taken d (req_email user) \/
      ~ email_taken d (req_email user) /\
      insert_user (req_email user)
        (req_password user ++ "notreallyhashed")%string true d = Raises x)) \/
  (exists u,
     get_db (create_user user) d = (users_append (new_user d user) d, Returns u) /\
     In u (users d ++ [new_user d user]) /\
     user_id u = users_auto_increment d /\
     ~ email_taken d (req_email user)).
Proof.
  pose proof (create_db_user_outcome user d) as H.
  unfold get_db in *. rewrite create_user_run. cbn [bind SessionLocal] in *.
  destruct (find _ _) as [v|] eqn:E.
  - left. exists ConflictError. split; [reflexivity|left]. split; [reflexivity|].
    apply find_some in E as [Hv He]. apply email_eqb_eq in He. exists v. auto.
  - apply find_email_None in E.
    destruct H as [(x & Hx & Hi)|H]; [left|right; exact H].
    exists x. split; [exact Hx|right; auto].
Qed.

(** The three ways a request can end: it raises and the store is as it was,
    it returns and the store is as it was, or it returns with one row
    appended. *)
Lemma serve_cases (d : Database) (r : Request) :
  (exists x, serve d r = (d, Raises x)) \/
  (exists b, serve d r = (d, Returns b)) \/
  (exists b user, r = POST_users user /\
     serve d r = (users_append (new_user d user) d, Returns b)) \/
  (exists b o item de, r = POST_users_id_items o item /\
     req_description item = Some de /\
     (exists u, In u (users d) /\ user_id u = o) /\
     serve d r = (items_append (new_item d (req_title item) de o) d, Returns b)).
Proof.
  destruct r as [user|skip n|id|o item|skip n].
  - rewrite serve_POST_users.
    destruct (create_user_outcome user d) as [(x & -> & _)|(u & -> & _)].
    + left. eexists. reflexivity.
    + right. right. left. do 2 eexists. split; reflexivity.
  - rewrite serve_GET_users. destruct (rows _ _); [right; left|left]; eexists; reflexivity.
  - rewrite serve_GET_users_id. destruct (find _ _); [right; left|left]; eexists; reflexivity.
  - rewrite serve_POST_users_id_items.
    destruct (create_db_user_item_outcome item o d)
      as [(x & -> & _)|(de & i & Hde & -> & _ & _ & Hown)].
    + left. eexists. reflexivity.
    + right. right. right. exists (ItemBody (ItemResponse_from_orm i)), o, item, de. auto.
  - rewrite serve_GET_items. destruct (rows _ _); [right; left|left]; eexists; reflexivity.
Qed.

(** X1. A request that raises leaves the store exactly as it found it,
    whichever route it is and whatever the store holds. *)
Theorem raising_request_changes_nothing (d : Database) (r : Request) (x : Exception) :
  snd (serve d r) = Raises x -> fst (serve d r) = d.
Proof.
  destruct (serve_cases d r)
    as [(y & ->)|[(b & ->)|[(b & user & _ & ->)|(b & o & item & de & _ & _ & _ & ->)]]];
    cbn; try reflexivity; discriminate.
Qed.

Lemma raising_request_changes_nothing_long_email :
  fst (serve alice_only (POST_users (mkUserCreateRequest long_email "wonderland")))
  = alice_only.
Proof.
  apply (raising_request_changes_nothing alice_only _ DataError).
  vm_compute. reflexivity.
Defined.

(** X2. No route updates or deletes: after any sequence of requests the
    rows stored before are still there, unchanged and in the same order, at
    the head of their table. *)
Theorem stored_rows_are_kept (rs : list Request) (d : Database) :
  (exists us, users (serve_all rs d) = users d ++ us) /\
  (exists its, items (serve_all rs d) = items d ++ its).
Proof.
  revert d. induction rs as [|r rs IH]; intros d.
  - split; exists []; cbn; now rewrite app_nil_r.
  - cbn [serve_all fold_left]. fold (serve_all rs (fst (serve d r))).
    destruct (IH (fst (serve d r))) as [(us & Hu) (its & Hi)].
    rewrite Hu, Hi.
    destruct (serve_cases d r)
      as [(y & ->)|[(b & ->)|[(b & user & _ & ->)|(b & o & item & de & _ & _ & _ & ->)]]];
      cbn [fst users items users_append items_append]; split;
      rewrite <- ?app_assoc; eexists; reflexivity.
Qed.

(** [POST /users/], case by case. *)
Lemma serve_POST_users_cases (d : Database) (user : UserCreateRequest) :
  let stored := email_taken d (req_email user) in
  let fits := (String.length (req_email user) <= email_size)%nat /\
              (String.length (req_password user) + 15 <= hashed_password_size)%nat in
  (stored /\ serve d (POST_users user) = (d, Raises ConflictError)) \/
  (~ stored /\ ~ fits /\ serve d (POST_users user) = (d, Raises DataError)) \/
  (~ stored /\ fits /\
   exists b, serve d (POST_users user) =
               (users_append (new_user d user) d, Returns (UserBody b))).
Proof.
  cbv zeta. rewrite serve_POST_users. unfold get_db. rewrite create_user_run.
  cbn [bind SessionLocal]. destruct (find _ _) as [v|] eqn:E.
  - left. split; [|reflexivity].
    apply find_some in E as [Hv He]. apply email_eqb_eq in He. exists v. auto.
  - right. apply find_email_None in E.
    rewrite create_db_user_run.
    destruct (insert_user_cases (req_email user)
                (req_password user ++ "notreallyhashed")%string true d)
      as [[-> Hnf]|[[_ Hst]|(-> & Hf & _)]];
      rewrite ?string_length_append in *; cbn [String.length] in *.
    + left. auto.
    + contradiction.
    + right. repeat split; try tauto.
      destruct (find_app_last_some (fun u => user_id u =? users_auto_increment d)
                  (users d) (new_user d user) (Z.eqb_refl _)) as (u & Hfind & _).
      unfold refresh_User. cbn [nth_error instances bind users users_append].
      unfold new_user in Hfind. rewrite Hfind. eexists. reflexivity.
Qed.

(** [POST /users/{user_id}/items/], case by case. *)
Lemma serve_POST_users_id_items_cases (d : Database) (o : Z) (item : ItemCreateRequest) :
  let owner := exists u, In u (users d) /\ user_id u = o in
  (serve d (POST_users_id_items o item) = (d, Raises DataError) /\
     ((title_size < String.length (req_title item))%nat \/
      exists de, req_description item = Some de /\
        (description_size < String.length de)%nat)) \/
  (serve d (POST_users_id_items o item) = (d, Raises IntegrityError) /\
     (req_description item = None \/ ~ owner)) \/
  (exists de b, req_description item = Some de /\
     serve d (POST_users_id_items o item) =
       (items_append (new_item d (req_title item) de o) d, Returns (ItemBody b)) /\
     (String.length (req_title item) <= title_size)%nat /\
     (String.length de <= description_size)%nat /\ owner).
Proof.
  cbv zeta. rewrite serve_POST_users_id_items. unfold get_db.
  rewrite create_db_user_item_run.
  destruct (insert_item_cases (req_title item) (req_description item) o d)
    as [[-> H]|[[-> H]|(de & Hde & -> & Ht & Hl & Hown)]].
  - left. auto.
  - right. left. auto.
  - right. right.
    destruct (find_app_last_some (fun i => item_id i =? items_auto_increment d)
                (items d) (new_item d (req_title item) de o) (Z.eqb_refl _))
      as (i & Hfind & _).
    unfold refresh_Item. cbn [nth_error instances bind items items_append].
    rewrite Hfind. exists de. eexists. auto.
Qed.



(** X5. In every store reached from the empty one, primary keys identify
    their row and every item belongs to a stored account: looking up the
    owner of any stored item never ends in 404. *)
Theorem reachable_store_integrity (sv : Server) (rs : list Request) :
  let d := serve_all rs (empty_database sv) in
  (forall u v, In u (users d) -> In v (users d) -> user_id u = user_id v -> u = v) /\
  (forall i j, In i (items d) -> In j (items d) -> item_id i = item_id j -> i = j) /\
  (forall i, In i (items d) ->
     exists u, In u (users d) /\ user_id u = owner_id i /\
       serve d (GET_users_id (owner_id i)) =
         (d, Returns (UserBody (UserResponse_of d u)))).
Proof.
  cbv zeta.
  pose proof (serve_all_consistent rs _ (empty_database_consistent sv)) as Hd.
  set (d := serve_all rs (empty_database sv)) in *. split; [|split].
  - intros u v Hu Hv He. eapply NoDup_map_eq; eauto. apply (users_pk_unique d Hd).
  - intros i j Hi Hj He. eapply NoDup_map_eq; eauto. apply (items_pk_unique d Hd).
  - intros i Hi. destruct (items_owner_fk d Hd i Hi) as (u & Hu & Ho).
    rewrite serve_GET_users_id.
    destruct (find _ _) as [v|] eqn:E.
    + apply find_some in E as [Hv Hid]. apply Z.eqb_eq in Hid.
      exists v. auto.
    + rewrite find_user_id_None in E. now apply E in Hu.
Qed.

Lemma serve_rows_origin (d : Database) (r : Request) :
  (forall u, In u (users (fst (serve d r))) ->
     In u (users d) \/
     exists user, u = new_user d user /\
       (String.length (req_email user) <= email_size)%nat /\
       (String.length (req_password user) + 15 <= hashed_password_size)%nat) /\
  (forall i, In i (items (fst (serve d r))) ->
     In i (items d) \/
     exists t de o, i = new_item d t de o /\
       (String.length t <= title_size)%nat /\
       (String.length de <= description_size)%nat).
Proof.
  destruct r as [user|skip n|id|o item|skip n].
  - destruct (serve_POST_users_cases d user)
      as [[_ ->]|[(_ & _ & ->)|(_ & Hf & b & ->)]]; cbn [fst]; auto.
    cbn [users items users_append]. split; [|auto].
    intros u [Hu|[<-|[]]]%in_app_or; [auto|right]. exists user. tauto.
  - rewrite serve_GET_users. auto.
  - rewrite serve_GET_users_id. destruct (find _ _); auto.
  - destruct (serve_POST_users_id_items_cases d o item)
      as [[-> _]|[[-> _]|(de & b & _ & -> & Ht & Hl & _)]]; cbn [fst]; auto.
    cbn [users items items_append]. split; [auto|].
    intros i [Hi|[<-|[]]]%in_app_or; [auto|right]. exists (req_title item), de, o. auto.
  - rewrite serve_GET_items. auto.
Qed.

Lemma serve_all_rows (P : User -> Prop) (Q : Item -> Prop) :
  (forall d user,
     (String.length (req_email user) <= email_size)%nat ->
     (String.length (req_password user) + 15 <= hashed_password_size)%nat ->
     P (new_user d user)) ->
  (forall d t de o,
     (String.length t <= title_size)%nat ->
     (String.length de <= description_size)%nat ->
     Q (new_item d t de o)) ->
  forall rs d,
    (forall u, In u (users d) -> P u) -> (forall i, In i (items d) -> Q i) ->
    (forall u, In u (users (serve_all rs d)) -> P u) /\
    (forall i, In i (items (serve_all rs d)) -> Q i).
Proof.
  intros HP HQ. induction rs as [|r rs IH]; intros d Hu Hi; [auto|].
  cbn [serve_all fold_left]. fold (serve_all rs (fst (serve d r))).
  destruct (serve_rows_origin d r) as [Ou Oi]. apply IH.
  - intros u [H|(user & -> & He & Hp)]%Ou; auto.
  - intros i [H|(t & de & o & -> & Ht & Hl)]%Oi; auto.
Qed.

(** X6. In every store reached from the empty one, each account is active,
    its stored secret is some password followed by ["notreallyhashed"], and
    every stored string fits its column. *)
Theorem reachable_rows_well_formed (sv : Server) (rs : list Request) :
  let d := serve_all rs (empty_database sv) in
  (forall u, In u (users d) ->
     is_active u = true /\
     (exists password, hashed_password u = (password ++ "notreallyhashed")%string) /\
     (String.length (email u) <= email_size)%nat /\
     (String.length (hashed_password u) <= hashed_password_size)%nat) /\
  (forall i, In i (items d) ->
     (String.length (title i) <= title_size)%nat /\
     (String.length (description i) <= description_size)%nat).
Proof.
  cbv zeta. apply serve_all_rows.
  - intros d user He Hp. cbn. repeat split; eauto.
    rewrite string_length_append. cbn. lia.
  - intros d t de o Ht Hl. cbn. auto.
  - intros u [].
  - intros i [].
Qed.




(** X8. After a successful [POST /users/X/items/], the response of account
    X carries its former items followed by the new one, and the response of
    every other account is what it was. *)
Theorem created_item_in_owner_response (d : Database) (o : Z)
        (item : ItemCreateRequest) (de : string) :
  consistent d ->
  (exists u, In u (users d) /\ user_id u = o) ->
  req_description item = Some de ->
  (String.length (req_title item) <= title_size)%nat ->
  (String.length de <= description_size)%nat ->
  let d' := fst (serve d (POST_users_id_items o item)) in
  let new := mkItemResponse (req_title item) (Some de) (items_auto_increment d) o in
  (exists u, In u (users d) /\ user_id u = o /\
     serve d (GET_users_id o) = (d, Returns (UserBody (UserResponse_of d u))) /\
     serve d' (GET_users_id o) =
       (d', Returns (UserBody
          (mkUserResponse (email u) o (is_active u)
             (resp_items (UserResponse_of d u) ++ [new]))))) /\
  (forall v, user_id v <> o -> UserResponse_of d' v = UserResponse_of d v).
Proof.
  intros Hd Hown Hde Ht Hl. cbv zeta.
  rewrite (serve_POST_users_id_items_fits d o item de Hd Hown Hde Ht Hl). cbn [fst].
  split.
  - rewrite !serve_GET_users_id. cbn [users items_append].
    destruct (find _ _) as [u|] eqn:E.
    + apply find_some in E as [Hu Hid]. apply Z.eqb_eq in Hid.
      exists u. repeat split; try assumption.
      unfold UserResponse_of. cbn [items items_append resp_items].
      rewrite filter_app, map_app. cbn [filter new_item owner_id].
      rewrite Hid, Z.eqb_refl. reflexivity.
    + destruct Hown as (u & Hu & Hid). rewrite find_user_id_None in E.
      now apply E in Hu.
  - intros v Hv. unfold UserResponse_of. cbn [items items_append].
    rewrite filter_app. cbn [filter new_item owner_id].
    replace (o =? user_id v) with false by (symmetry; apply Z.eqb_neq; lia).
    now rewrite app_nil_r.
Qed.

Lemma created_item_in_owner_response_alice :
  snd (serve (fst (serve alice_only (POST_users_id_items 1 milk))) (GET_users_id 1)) =
  Returns (UserBody
    (mkUserResponse "alice@example.com" 1 true
       [mkItemResponse "milk" (Some "two litres") 1 1])).
Proof.
  assert (H30 : (String.length (req_title milk) <= title_size)%nat)
    by (vm_compute; lia).
  assert (H30' : (String.length "two litres" <= description_size)%nat)
    by (vm_compute; lia).
  assert (Hown : exists u, In u (users alice_only) /\ user_id u = 1)
    by (eexists; split; [left; reflexivity|reflexivity]).
  destruct (created_item_in_owner_response alice_only 1 milk "two litres"
              alice_only_consistent Hown eq_refl H30 H30')
    as [(u & Hu & _ & _ & H) _].
  rewrite H. vm_compute in Hu. destruct Hu as [<-|[]]. reflexivity.
Defined.

Lemma firstn_adjacent {A} (n m : nat) (l : list A) :
  firstn n l ++ firstn m (skipn n l) = firstn (n + m) l.
Proof.
  revert l. induction n as [|n IH]; intros l; [reflexivity|].
  destruct l as [|a l]; cbn; [now rewrite firstn_nil|]. now rewrite IH.
Qed.

Lemma rows_adjacent {R} (sv : Server) (skip n m : Z) (table : list R) :
  0 <= skip -> 0 <= n -> 0 <= m ->
  exists p q,
    rows sv (limit n (offset skip select)) table = Returns p /\
    rows sv (limit m (offset (skip + n) select)) table = Returns q /\
    rows sv (limit (n + m) (offset skip select)) table = Returns (p ++ q).
Proof.
  intros Hs Hn Hm. rewrite !rows_page by lia. do 2 eexists.
  split; [reflexivity|split; [reflexivity|]]. f_equal.
  rewrite !Z2Nat.inj_add by lia.
  rewrite (Nat.add_comm (Z.to_nat skip) (Z.to_nat n)), <- skipn_skipn.
  symmetry. apply firstn_adjacent.
Qed.

(** X9. For non-negative [skip] and [limit], [get_db_items] returns the
    stored items in table order without the first [skip] and cut after
    [limit], never more than [limit] of them, and [GET /items/] returns
    their responses; a limit that covers the table returns all of it, a skip
    past the end returns nothing; the route's defaults are [skip=0] and
    [limit=100]. *)
Theorem get_db_items_page (d : Database) (skip n : Z) :
  0 <= skip -> 0 <= n ->
  let page := firstn (Z.to_nat n) (skipn (Z.to_nat skip) (items d)) in
  get_db (get_db_items skip n) d = (d, Returns page) /\
  serve d (GET_items (Some skip) (Some n)) =
    (d, Returns (ItemListBody (map ItemResponse_from_orm page))) /\
  (Z.of_nat (List.length page) <= n) /\
  (Z.of_nat (List.length (items d)) <= n ->
     get_db (get_db_items 0 n) d = (d, Returns (items d))) /\
  (Z.of_nat (List.length (items d)) <= skip -> page = []) /\
  read_items None None = get_db_items 0 100.
Proof.
  intros Hs Hn page. repeat split.
  - unfold get_db. rewrite get_db_items_run. cbn [bind SessionLocal].
    now rewrite rows_page.
  - rewrite serve_GET_items. cbn [or_default]. now rewrite rows_page.
  - subst page. rewrite length_firstn. lia.
  - intros Hall. unfold get_db. rewrite get_db_items_run. cbn [bind SessionLocal].
    rewrite rows_page by lia. cbn [Z.to_nat skipn].
    rewrite firstn_all2; [reflexivity|lia].
  - intros Hpast. subst page. rewrite skipn_all2 by lia. apply firstn_nil.
Qed.

Lemma get_db_items_page_hundred :
  get_db (get_db_items 0 100) hundred_items = (hundred_items, Returns (items hundred_items)).
Proof.
  assert (H0 : 0 <= 0) by lia. assert (H100 : 0 <= 100) by lia.
  destruct (get_db_items_page hundred_items 0 100 H0 H100) as (_ & _ & _ & H & _).
  apply H. vm_compute. discriminate.
Defined.

(** X10. Pages that follow each other make up the longer page: the rows of
    [skip, limit] followed by the rows of [skip + limit, limit2] are the rows
    of [skip, limit + limit2], for accounts and for items.  A client that
    pages through a table misses nothing and sees nothing twice. *)
Theorem adjacent_pages (d : Database) (skip n m : Z) :
  0 <= skip -> 0 <= n -> 0 <= m ->
  (exists p q,
     get_db (get_db_users skip n) d = (d, Returns p) /\
     get_db (get_db_users (skip + n) m) d = (d, Returns q) /\
     get_db (get_db_users skip (n + m)) d = (d, Returns (p ++ q))) /\
  (exists p q,
     get_db (get_db_items skip n) d = (d, Returns p) /\
     get_db (get_db_items (skip + n) m) d = (d, Returns q) /\
     get_db (get_db_items skip (n + m)) d = (d, Returns (p ++ q))).
Proof.
  intros Hs Hn Hm. unfold get_db.
  rewrite !get_db_users_run, !get_db_items_run. cbn [bind SessionLocal].
  destruct (rows_adjacent (server d) skip n m (users d) Hs Hn Hm) as (p & q & -> & -> & ->).
  destruct (rows_adjacent (server d) skip n m (items d) Hs Hn Hm) as (p' & q' & -> & -> & ->).
  split; do 2 eexists; repeat split.
Qed.

Lemma adjacent_pages_150 :
  exists p q,
    get_db (get_db_users 0 100) hundred_fifty_users = (hundred_fifty_users, Returns p) /\
    get_db (get_db_users (0 + 100) 100) hundred_fifty_users =
      (hundred_fifty_users, Returns q) /\
    get_db (get_db_users 0 (100 + 100)) hundred_fifty_users =
      (hundred_fifty_users, Returns (p ++ q)).
Proof.
  assert (H0 : 0 <= 0) by lia. assert (H100 : 0 <= 100) by lia.
  exact (proj1 (adjacent_pages hundred_fifty_users 0 100 100 H0 H100 H100)).
Defined.

Lemma StronglySorted_snoc (l : list Z) (y : Z) :
  StronglySorted Z.lt l -> (forall x, In x l -> x < y) ->
  StronglySorted Z.lt (l ++ [y]).
Proof.
  induction 1 as [|a l Hl IH Ha]; intros Hy; cbn.
  - repeat constructor.
  - constructor.
    + apply IH. intros x Hx. apply Hy. now right.
    + apply Forall_app. split; [assumption|]. repeat constructor.
      apply Hy. now left.
Qed.

Lemma serve_keys_sorted (d : Database) (r : Request) :
  consistent d ->
  StronglySorted Z.lt (map user_id (users d)) ->
  StronglySorted Z.lt (map item_id (items d)) ->
  StronglySorted Z.lt (map user_id (users (fst (serve d r)))) /\
  StronglySorted Z.lt (map item_id (items (fst (serve d r)))).
Proof.
  intros Hd Hu Hi.
  destruct (serve_cases d r)
    as [(y & ->)|[(b & ->)|[(b & user & _ & ->)|(b & o & item & de & _ & _ & _ & ->)]]];
    cbn [fst users items users_append items_append]; split; try assumption;
    rewrite map_app; cbn [map]; apply StronglySorted_snoc; try assumption.
  - intros k (u & <- & Hin)%in_map_iff. cbn. now apply (users_pk_issued d Hd).
  - intros k (i & <- & Hin)%in_map_iff. cbn. now apply (items_pk_issued d Hd).
Qed.

Lemma serve_all_keys_sorted (rs : list Request) (d : Database) :
  consistent d ->
  StronglySorted Z.lt (map user_id (users d)) ->
  StronglySorted Z.lt (map item_id (items d)) ->
  StronglySorted Z.lt (map user_id (users (serve_all rs d))) /\
  StronglySorted Z.lt (map item_id (items (serve_all rs d))).
Proof.
  revert d. induction rs as [|r rs IH]; intros d Hd Hu Hi; [auto|].
  cbn [serve_all fold_left]. fold (serve_all rs (fst (serve d r))).
  destruct (serve_keys_sorted d r Hd Hu Hi) as [Hu' Hi'].
  apply IH; auto using serve_consistent.
Qed.

(** X11. In every store reached from the empty one the rows of each table
    stand in the order of their generated ids: what a listing returns is in
    order of creation, each id larger than all before it. *)
Theorem reachable_tables_in_key_order (sv : Server) (rs : list Request) :
  let d := serve_all rs (empty_database sv) in
  StronglySorted Z.lt (map user_id (users d)) /\
  StronglySorted Z.lt (map item_id (items d)).
Proof.
  cbv zeta. apply serve_all_keys_sorted.
  - apply empty_database_consistent.
  - constructor.
  - constructor.
Qed.
